(** * Poker Advisor front end: a shallow embedding and its properties

    The development follows the React sources of the repository:

    - [Card.jsx]              : the [Card] component and [ALL_CARDS];
    - [CardSelectorModal.jsx] : the modal used to pick hole cards;
    - [Advisor.jsx]           : the panel showing a lookup result;
    - [PokerTable.jsx]        : the table, in its current (multi table size)
                                and its earlier (6-max only) version;

    and, for the equity engine that the specification describes but whose
    code is not part of the sources, a model written from the
    specification's words.

    JavaScript strings are modelled by [string] (sequences of 8-bit
    characters): card tokens, position ids, action names and the text of a
    numeric input are ASCII.  Arrays are lists; an object literal used as
    a lookup table is the finite map of its own properties, behind which a
    lookup finds the properties inherited from [Object.prototype]; an
    exception thrown by the source is the [None] of an [option]. *)

From Stdlib Require Import Ascii String ZArith QArith Lia Lqa.
From Stdlib Require Import DecimalString.
From stdpp Require Import base strings list gmap.

Open Scope Z_scope.

(* ================================================================== *)
(** * The JavaScript built-ins the sources rely on                      *)
(* ================================================================== *)

Module JS.

(** ** Characters and case conversion (ASCII range) *)

Definition isUpper (c : ascii) : bool :=
  let n := N_of_ascii c in ((65 <=? n) && (n <=? 90))%N.

Definition isLower (c : ascii) : bool :=
  let n := N_of_ascii c in ((97 <=? n) && (n <=? 122))%N.

Definition lowerChar (c : ascii) : ascii :=
  if isUpper c then ascii_of_N (N_of_ascii c + 32) else c.

Definition upperChar (c : ascii) : ascii :=
  if isLower c then ascii_of_N (N_of_ascii c - 32) else c.

(** [String.prototype.toLowerCase] and [toUpperCase]. *)
Fixpoint toLowerCase (s : string) : string :=
  match s with
  | EmptyString => EmptyString
  | String c r => String (lowerChar c) (toLowerCase r)
  end.

Fixpoint toUpperCase (s : string) : string :=
  match s with
  | EmptyString => EmptyString
  | String c r => String (upperChar c) (toUpperCase r)
  end.

(** Whether a string holds an upper-case letter. *)
Fixpoint hasUpper (s : string) : bool :=
  match s with
  | EmptyString => false
  | String c r => isUpper c || hasUpper r
  end.

(** [s[i]]: the one-character string at index [i], or [undefined]
    ([None]) past the end. *)
Definition charAt (s : string) (i : nat) : option ascii := String.get i s.

(** [arr.includes(x)] on an array of strings. *)
Definition includes (x : string) (arr : list string) : bool :=
  bool_decide (x ∈ arr).

(** ** Values

    The values that can sit in a field of a JSON response or come out of
    a property lookup.  [JBuiltin name] is the object that a lookup of
    [name] finds on [Object.prototype] (a built-in function, or the
    prototype object itself for [__proto__]). *)
Inductive Value : Type :=
| JUndefined
| JNull
| JBool (b : bool)
| JNum (n : Z)
| JStr (s : string)
| JBuiltin (name : string).

(** [ToBoolean]. *)
Definition truthy (v : Value) : bool :=
  match v with
  | JUndefined | JNull => false
  | JBool b => b
  | JNum n => negb (n =? 0)
  | JStr s => negb (String.eqb s EmptyString)
  | JBuiltin _ => true
  end.

(** [a || b]. *)
Definition or_else (a b : Value) : Value := if truthy a then a else b.

(** [v === false]. *)
Definition strictly_false (v : Value) : bool :=
  match v with
  | JBool false => true
  | _ => false
  end.

(** The string-named properties every object literal inherits from
    [Object.prototype]. *)
Definition Object_prototype_keys : list string :=
  [ "constructor"; "__proto__"; "hasOwnProperty"; "isPrototypeOf";
    "propertyIsEnumerable"; "toLocaleString"; "toString"; "valueOf";
    "__defineGetter__"; "__defineSetter__";
    "__lookupGetter__"; "__lookupSetter__" ].

(** [obj[key]] for an object literal [obj] whose own properties are the
    strings of [own]: own properties first, then the prototype chain. *)
Definition get (own : gmap string string) (key : string) : Value :=
  match own !! key with
  | Some v => JStr v
  | None =>
      if bool_decide (key ∈ Object_prototype_keys) then JBuiltin key
      else JUndefined
  end.

(** ** Numbers

    A number is [NaN], an infinity or a finite value.  Finite values are
    kept as exact rationals: the rounding of a decimal literal to the
    nearest double is not modelled (it leaves every value that a double
    holds exactly, among them all integers up to 2^53, unchanged). *)
Inductive Number : Type :=
| NaN
| PosInf
| NegInf
| Fin (q : Q).

Definition ofZ (n : Z) : Number := Fin (inject_Z n).

(** [x < y] and [x > y] on numbers: any comparison with [NaN] is false. *)
Definition lt (x y : Number) : bool :=
  match x, y with
  | NaN, _ | _, NaN => false
  | PosInf, _ => false
  | _, NegInf => false
  | NegInf, _ => true
  | _, PosInf => true
  | Fin a, Fin b => negb (Qle_bool b a)
  end.

Definition gt (x y : Number) : bool := lt y x.

(** ** Reading numerals *)

Definition isDigit (c : ascii) : bool :=
  let n := N_of_ascii c in ((48 <=? n) && (n <=? 57))%N.

Definition digitValue (c : ascii) : Z := Z.of_N (N_of_ascii c) - 48.

(** Value of a hexadecimal digit, if [c] is one. *)
Definition hexValue (c : ascii) : option Z :=
  let n := N_of_ascii c in
  if isDigit c then Some (Z.of_N n - 48)
  else if ((65 <=? n) && (n <=? 70))%N then Some (Z.of_N n - 55)
  else if ((97 <=? n) && (n <=? 102))%N then Some (Z.of_N n - 87)
  else None.

(** The longest prefix of decimal digits, and what follows it. *)
Fixpoint spanDigits (s : string) : string * string :=
  match s with
  | String c r =>
      if isDigit c then
        let '(ds, rest) := spanDigits r in (String c ds, rest)
      else (EmptyString, s)
  | EmptyString => (EmptyString, EmptyString)
  end.

(** Whether a string consists of decimal digits only. *)
Fixpoint allDigits (s : string) : bool :=
  match s with
  | EmptyString => true
  | String c r => isDigit c && allDigits r
  end.

(** The mathematical value of a string of decimal digits, most
    significant first, continuing from [acc]. *)
Fixpoint decimalValue (acc : Z) (ds : string) : Z :=
  match ds with
  | EmptyString => acc
  | String c r => decimalValue (10 * acc + digitValue c) r
  end.

(** The value of a whole string in radix [radix] (2, 8 or 16), or [None]
    when some character is not a digit of that radix. *)
Fixpoint radixValue (radix : Z) (acc : Z) (s : string) : option Z :=
  match s with
  | EmptyString => Some acc
  | String c r =>
      match hexValue c with
      | Some d => if d <? radix then radixValue radix (radix * acc + d) r
                  else None
      | None => None
      end
  end.

(** The ASCII members of WhiteSpace and LineTerminator. *)
Definition isWhiteSpace (c : ascii) : bool :=
  let n := N_of_ascii c in
  ((9 <=? n) && (n <=? 13) || (n =? 32))%N.

Fixpoint trimStart (s : string) : string :=
  match s with
  | String c r => if isWhiteSpace c then trimStart r else s
  | EmptyString => EmptyString
  end.

Fixpoint trimEnd (s : string) : string :=
  match s with
  | EmptyString => EmptyString
  | String c r =>
      match trimEnd r with
      | EmptyString => if isWhiteSpace c then EmptyString
                       else String c EmptyString
      | r' => String c r'
      end
  end.

Definition trim (s : string) : string := trimEnd (trimStart s).

(** [m * 10^e] as a rational. *)
Definition scale10 (m e : Z) : Q :=
  if 0 <=? e then inject_Z (m * 10 ^ e)
  else (m # Z.to_pos (10 ^ (- e)))%Q.

(** ExponentPart of a decimal literal, which must end the string:
    nothing (exponent 0), or [e]/[E], an optional sign and at least one
    digit. *)
Definition exponentPart (s : string) : option Z :=
  match s with
  | EmptyString => Some 0
  | String c r =>
      if bool_decide (c = "e"%char ∨ c = "E"%char) then
        let '(neg, r) :=
          match r with
          | String "-" r' => (true, r')
          | String "+" r' => (false, r')
          | _ => (false, r)
          end in
        match spanDigits r with
        | (String d ds, EmptyString) =>
            let v := decimalValue 0 (String d ds) in
            Some (if neg then - v else v)
        | _ => None
        end
      else None
  end.

(** StrUnsignedDecimalLiteral other than [Infinity]:
    digits, [digits.], [digits.digits] or [.digits], then an optional
    exponent. *)
Definition unsignedDecimal (s : string) : option Q :=
  let '(ip, r1) := spanDigits s in
  let '(fp, r2) :=
    match r1 with
    | String "." r => spanDigits r
    | _ => (EmptyString, r1)
    end in
  match ip, fp with
  | EmptyString, EmptyString => None
  | _, _ =>
      match exponentPart r2 with
      | Some e =>
          Some (scale10 (decimalValue (decimalValue 0 ip) fp)
                        (e - Z.of_nat (String.length fp)))
      | None => None
      end
  end.

(** StrDecimalLiteral: an optional sign and an unsigned literal. *)
Definition signedDecimal (s : string) : Number :=
  let '(neg, body) :=
    match s with
    | String "-" r => (true, r)
    | String "+" r => (false, r)
    | _ => (false, s)
    end in
  if String.eqb body "Infinity" then (if neg then NegInf else PosInf)
  else match unsignedDecimal body with
       | Some q => Fin (if neg then (- q)%Q else q)
       | None => NaN
       end.

(** The radix announced by the prefixes "0x", "0o" and "0b", in either
    letter case. *)
Definition prefixRadix (c p : ascii) : option Z :=
  if bool_decide (c = "0"%char) then
    if bool_decide (p = "x"%char ∨ p = "X"%char) then Some 16
    else if bool_decide (p = "o"%char ∨ p = "O"%char) then Some 8
    else if bool_decide (p = "b"%char ∨ p = "B"%char) then Some 2
    else None
  else None.

(** [StringToNumber]: what [Number(s)], and the implicit conversion of a
    string operand of [<] or [>], compute.  White space around the literal
    is dropped; the empty string is 0; a prefixed literal needs at least
    one digit of its radix and takes no sign; anything that is not a
    literal is [NaN]. *)
Definition StringToNumber (s : string) : Number :=
  match trim s with
  | EmptyString => Fin 0
  | String c (String p (String d ds)) =>
      match prefixRadix c p with
      | Some radix =>
          match radixValue radix 0 (String d ds) with
          | Some v => ofZ v
          | None => NaN
          end
      | None => signedDecimal (String c (String p (String d ds)))
      end
  | t => signedDecimal t
  end.

(** [parseInt(s, 10)] on a string: leading white space and a sign are
    skipped, then the longest run of decimal digits is read; what follows
    is ignored, and no digit at all gives [NaN]. *)
Definition parseInt10 (s : string) : Number :=
  let t := trimStart s in
  let '(neg, body) :=
    match t with
    | String "-" r => (true, r)
    | String "+" r => (false, r)
    | _ => (false, t)
    end in
  match spanDigits body with
  | (EmptyString, _) => NaN
  | (ds, _) => let v := decimalValue 0 ds in ofZ (if neg then - v else v)
  end.

(** [ToString] of an integer-valued number: its decimal numeral.  (From
    1e21 on a number prints in exponent notation; [parseInt] is reached
    below only with a stack that passed the 1..500 check.) *)
Definition integerToString (n : Z) : string :=
  NilZero.string_of_int (Z.to_int n).

End JS.

(* ================================================================== *)
(** * Card.jsx                                                          *)
(* ================================================================== *)

Module CardView.

Inductive SuitIcon : Type := Heart | Diamond | Club | Spade.

(** What [Card] draws for a card: the rank text, the colour of rank and
    icon, and the icon.  (The props [selected], [small], [disabled] and
    [onClick] only pick sizes, rings and the click handler.) *)
Record Face : Type := mkFace {
  displayRank : string;
  isRed : bool;
  icon : SuitIcon
}.

Inductive View : Type :=
| EmptySlot            (* the dashed "?" placeholder *)
| Drawn (f : Face).

(** [{ h: Heart, d: Diamond, c: Club, s: Spade }[suit] || Spade] *)
Definition suitIcon (suit : option ascii) : SuitIcon :=
  match suit with
  | Some "h"%char => Heart
  | Some "d"%char => Diamond
  | Some "c"%char => Club
  | _ => Spade
  end.

(** [rank === 'T' ? '10' : rank]; an [undefined] rank draws nothing. *)
Definition rankText (rank : option ascii) : string :=
  match rank with
  | Some "T"%char => "10"
  | Some r => String r EmptyString
  | None => EmptyString
  end.

(** [suit === 'h' || suit === 'd'] *)
Definition redSuit (suit : option ascii) : bool :=
  match suit with
  | Some c => bool_decide (c = "h"%char) || bool_decide (c = "d"%char)
  | None => false
  end.

(** The [Card] component.  [card] is [None] for a missing prop; like the
    empty string it is falsy and gives the empty slot. *)
Definition Card (card : option string) : View :=
  match card with
  | None | Some EmptyString => EmptySlot
  | Some c =>
      let rank := JS.charAt c 0 in
      let suit := JS.charAt c 1 in
      Drawn {| displayRank := rankText rank;
               isRed := redSuit suit;
               icon := suitIcon suit |}
  end.

(** [ALL_CARDS]: the two nested loops, suits outside and ranks inside,
    pushing [`${rank}${suit}`]. *)
Definition ranks : list string :=
  ["A"; "K"; "Q"; "J"; "T"; "9"; "8"; "7"; "6"; "5"; "4"; "3"; "2"]%string.

Definition suits : list string := ["s"; "h"; "d"; "c"]%string.

Definition ALL_CARDS : list string :=
  flat_map (fun suit => map (fun rank => (rank +:+ suit)%string) ranks) suits.

End CardView.

(* ================================================================== *)
(** * CardSelectorModal.jsx                                             *)
(* ================================================================== *)

Module CardSelector.

(** The props that matter to the selection ([isOpen] only decides
    whether anything is drawn; [onClose] and [onSelect] are the effects
    below).  [maxCards] is a card count. *)
Record Props : Type := mkProps {
  selectedCards : list string;
  disabledCards : list string;
  maxCards : nat
}.

(** The defaults of the destructured props. *)
Definition defaultProps : Props :=
  {| selectedCards := []; disabledCards := []; maxCards := 2 |}.

(** [useState(selectedCards)]: the state the component is mounted with. *)
Definition initialSelection (p : Props) : list string := selectedCards p.

(** What the user can do in the open modal. *)
Inductive Event : Type :=
| ClickCard (card : string)   (* a card of the grid *)
| ClickClear
| ClickConfirm
| ClickCancel.                (* Cancel, or the X of the header *)

(** Calls made on the parent. *)
Inductive Effect : Type :=
| OnSelect (cards : list string)
| OnClose.

Definition handleCardClick (p : Props) (tempSelection : list string)
    (card : string) : list string :=
  if JS.includes card (disabledCards p) then tempSelection
  else if JS.includes card tempSelection then
    filter (fun c => c ≠ card) tempSelection
  else if (length tempSelection <? maxCards p)%nat then
    tempSelection ++ [card]
  else tempSelection.

Definition handleConfirm (tempSelection : list string) : list Effect :=
  [OnSelect tempSelection; OnClose].

Definition handleClear : list string := [].

(** The Confirm button carries
    [disabled={tempSelection.length !== maxCards}]: a click on it runs
    [handleConfirm] only when the button is enabled. *)
Definition confirmEnabled (p : Props) (tempSelection : list string) : bool :=
  (length tempSelection =? maxCards p)%nat.

(** One event: the next selection and the calls made on the parent. *)
Definition step (p : Props) (tempSelection : list string) (e : Event)
    : list string * list Effect :=
  match e with
  | ClickCard card => (handleCardClick p tempSelection card, [])
  | ClickClear => (handleClear, [])
  | ClickConfirm =>
      if confirmEnabled p tempSelection
      then (tempSelection, handleConfirm tempSelection)
      else (tempSelection, [])
  | ClickCancel => (tempSelection, [OnClose])
  end.

(** A sequence of events from a given selection: every selection gone
    through (the starting one first) and every call made. *)
Fixpoint run (p : Props) (tempSelection : list string) (es : list Event)
    : list (list string) * list Effect :=
  match es with
  | [] => ([tempSelection], [])
  | e :: es' =>
      let '(next, out) := step p tempSelection e in
      let '(sels, outs) := run p next es' in
      (tempSelection :: sels, out ++ outs)
  end.

(** The hands handed to [onSelect]. *)
Definition selectedHands (effs : list Effect) : list (list string) :=
  omap (fun e => match e with OnSelect h => Some h | OnClose => None end) effs.

(** The modal from its mount on. *)
Definition session (p : Props) (es : list Event)
    : list (list string) * list Effect :=
  run p (initialSelection p) es.

(** A selection that is duplicate free, avoids the disabled cards and
    holds at most [maxCards] cards. *)
Definition wellFormed (p : Props) (sel : list string) : Prop :=
  NoDup sel ∧ (∀ c, c ∈ sel → c ∉ disabledCards p) ∧
  (length sel ≤ maxCards p)%nat.

End CardSelector.

(* ================================================================== *)
(** * Advisor.jsx                                                       *)
(* ================================================================== *)

Module Advisor.

(** The fields of the [/api/analyze-spot] response that decide the
    colour, the headline and the database indicator.  [action] is a
    string when present; [None] stands for an absent, [undefined] or
    [null] field.  (The remaining fields, [hand], [scenario],
    [frequency], [ev] and the alternative action, are only printed.) *)
Record Result : Type := mkResult {
  action : option string;
  found_in_database : JS.Value
}.

Definition actionColors : gmap string string :=
  list_to_map
    [ ("raise", "from-green-600 to-emerald-700 border-green-500");
      ("all_in", "from-orange-600 to-amber-700 border-orange-500");
      ("call", "from-blue-600 to-cyan-700 border-blue-500");
      ("fold", "from-red-900 to-gray-800 border-red-700");
      ("check", "from-gray-600 to-gray-700 border-gray-500") ]%string.

Definition actionLabels : gmap string string :=
  list_to_map
    [ ("raise", "RAISE"); ("all_in", "ALL-IN"); ("call", "CALL");
      ("fold", "FOLD"); ("check", "CHECK") ]%string.

(** [result.action?.toLowerCase() || 'fold'] *)
Definition actionKey (r : Result) : string :=
  match action r with
  | Some a =>
      let lowered := JS.toLowerCase a in
      if JS.truthy (JS.JStr lowered) then lowered else "fold"%string
  | None => "fold"%string
  end.

(** [actionColors[action] || actionColors.fold] *)
Definition colorClass (r : Result) : JS.Value :=
  JS.or_else (JS.get actionColors (actionKey r))
             (JS.get actionColors "fold").

(** [actionLabels[action] || result.action?.toUpperCase()] *)
Definition label (r : Result) : JS.Value :=
  JS.or_else (JS.get actionLabels (actionKey r))
             (match action r with
              | Some a => JS.JStr (JS.toUpperCase a)
              | None => JS.JUndefined
              end).

(** [result.found_in_database === false && <div>...</div>] *)
Definition databaseIndicator (r : Result) : bool :=
  JS.strictly_false (found_in_database r).

Inductive View : Type :=
| Skeleton                       (* the pulsing placeholder while loading *)
| Prompt                         (* "Select your cards and click ..." *)
| Panel (colorClass label : JS.Value) (databaseIndicator : bool).

(** The component: [result] is [None] when the prop is [null]. *)
Definition Advisor (result : option Result) (loading : bool) : View :=
  if loading then Skeleton
  else match result with
       | None => Prompt
       | Some r => Panel (colorClass r) (label r) (databaseIndicator r)
       end.

(** Whether the "Default suggestion (hand not in database)" line is part
    of what is drawn. *)
Definition showsDefaultSuggestion (v : View) : bool :=
  match v with
  | Panel _ _ shown => shown
  | _ => false
  end.

Definition foldColor : string := "from-red-900 to-gray-800 border-red-700".

End Advisor.

(* ================================================================== *)
(** * PokerTable.jsx                                                    *)
(* ================================================================== *)

Module PokerTable.

Record Position : Type := mkPosition {
  id : string;
  label : string;
  angle : Z
}.

Record TableConfig : Type := mkConfig { positions : list Position }.

Definition sixMax : TableConfig :=
  {| positions :=
       [ mkPosition "BTN" "BTN" 270; mkPosition "SB" "SB" 210;
         mkPosition "BB" "BB" 150;  mkPosition "UTG" "UTG" 90;
         mkPosition "MP" "MP" 30;   mkPosition "CO" "CO" 330 ] |}.

Definition nineMax : TableConfig :=
  {| positions :=
       [ mkPosition "BTN" "BTN" 270; mkPosition "SB" "SB" 230;
         mkPosition "BB" "BB" 190;  mkPosition "UTG" "UTG" 150;
         mkPosition "UTG1" "UTG+1" 110; mkPosition "MP" "MP" 70;
         mkPosition "MP1" "MP+1" 30; mkPosition "CO" "CO" 350;
         mkPosition "HJ" "HJ" 310 ] |}.

Definition headsUp : TableConfig :=
  {| positions :=
       [ mkPosition "BTN" "BTN/SB" 270; mkPosition "BB" "BB" 90 ] |}.

(** The table sizes and their seats.  (A name inherited from
    [Object.prototype] leads to an object without [positions], so that in
    both lookups below it behaves like a name that is not a key.) *)
Definition TABLE_CONFIGS : gmap string TableConfig :=
  list_to_map
    [ ("6-max"%string, sixMax); ("9-max"%string, nineMax);
      ("heads-up"%string, headsUp) ].

(** The value of the stack field: a number (the initial 100 and the
    preset buttons) or the text of the numeric input
    ([setStackSize(e.target.value)]). *)
Inductive StackSize : Type :=
| StackNumber (n : Z)
| StackText (s : string).

(** The conversion applied to [stackSize] by [<] and [>]. *)
Definition stackToNumber (s : StackSize) : JS.Number :=
  match s with
  | StackNumber n => JS.ofZ n
  | StackText t => JS.StringToNumber t
  end.

(** [parseInt(stackSize, 10)]: the argument is first turned into a
    string. *)
Definition parseStack (s : StackSize) : JS.Number :=
  match s with
  | StackNumber n => JS.parseInt10 (JS.integerToString n)
  | StackText t => JS.parseInt10 t
  end.

Record State : Type := mkState {
  tableSize : string;
  heroCards : list string;
  heroPosition : string;
  villainPosition : string;
  stackSize : StackSize;
  scenarioMode : string;
  showCardSelector : bool;
  result : option Advisor.Result;
  loading : bool;
  error : option string
}.

(** The [useState] initial values. *)
Definition initialState : State :=
  {| tableSize := "6-max"; heroCards := []; heroPosition := "BTN";
     villainPosition := "BB"; stackSize := StackNumber 100;
     scenarioMode := "rfi"; showCardSelector := false;
     result := None; loading := false; error := None |}.

(** [TABLE_CONFIGS[tableSize]?.positions || TABLE_CONFIGS['6-max'].positions] *)
Definition currentPositions (st : State) : list Position :=
  match TABLE_CONFIGS !! tableSize st with
  | Some cfg => positions cfg
  | None => positions sixMax
  end.

(** [newPositions.find(p => p.id === pos)] is truthy. *)
Definition hasPosition (ps : list Position) (pos : string) : bool :=
  bool_decide (Exists (fun p => id p = pos) ps).

(** [newPositions[0].id]; reading [id] of [undefined] throws. *)
Definition firstId (ps : list Position) : option string :=
  id <$> ps !! 0%nat.

(** [newPositions[1]?.id || newPositions[0].id] *)
Definition secondOrFirstId (ps : list Position) : option string :=
  match ps !! 1%nat with
  | Some p => if JS.truthy (JS.JStr (id p)) then Some (id p) else firstId ps
  | None => firstId ps
  end.

(** [handleTableSizeChange(newSize)]; [None] when the handler throws
    (no such table size, or no position to fall back on). *)
Definition handleTableSizeChange (newSize : string) (st : State)
    : option State :=
  cfg ← TABLE_CONFIGS !! newSize;
  let newPositions := positions cfg in
  hero ← (if hasPosition newPositions (heroPosition st)
          then Some (heroPosition st) else firstId newPositions);
  villain ← (if hasPosition newPositions (villainPosition st)
             then Some (villainPosition st)
             else secondOrFirstId newPositions);
  Some {| tableSize := newSize; heroCards := heroCards st;
          heroPosition := hero; villainPosition := villain;
          stackSize := stackSize st; scenarioMode := scenarioMode st;
          showCardSelector := showCardSelector st; result := result st;
          loading := loading st; error := error st |}.

(** The options of the villain [<select>] (drawn in 'vs' mode):
    [positions.filter(p => p.id !== heroPosition)]. *)
Definition villainOptions (st : State) : list Position :=
  filter (fun p => id p ≠ heroPosition st) (currentPositions st).

(** The props of the [CardSelectorModal] element: the hero's cards,
    [maxCards={2}] and no [disabledCards] (so its default). *)
Definition modalProps (st : State) : CardSelector.Props :=
  {| CardSelector.selectedCards := heroCards st;
     CardSelector.disabledCards := [];
     CardSelector.maxCards := 2 |}.

(** The body sent to [/api/analyze-spot]. *)
Record SpotRequest : Type := mkRequest {
  hero_position : string;
  villain_position : string;
  stack : JS.Number;
  hand : list string
}.

(** How the awaited call ends: with the response body, or with an error
    whose [response?.data?.detail] may be missing. *)
Inductive Reply : Type :=
| Resolved (r : Advisor.Result)
| Rejected (detail : option string).

(** What [handleAnalyze] does, in order. *)
Inductive Effect : Type :=
| SetError (e : option string)
| SetLoading (b : bool)
| SetResult (r : Advisor.Result)
| AnalyzeSpot (req : SpotRequest).

(** [err.response?.data?.detail || 'Analysis failed'] *)
Definition failureText (detail : option string) : string :=
  match detail with
  | Some d => if JS.truthy (JS.JStr d) then d else "Analysis failed"
  | None => "Analysis failed"
  end.

Definition settle (reply : Reply) : list Effect :=
  match reply with
  | Resolved r => [SetResult r]
  | Rejected detail => [SetError (Some (failureText detail))]
  end.

(** [handleAnalyze], run in state [st]: the state updates and the call it
    makes, in order.  [reply] is how the awaited [analyzeSpot] call ends
    if it is made. *)
Definition handleAnalyze (st : State) (reply : Reply) : list Effect :=
  if negb (length (heroCards st) =? 2)%nat then
    [SetError (Some "Please select 2 cards"%string)]
  else if JS.lt (stackToNumber (stackSize st)) (JS.ofZ 1)
          || JS.gt (stackToNumber (stackSize st)) (JS.ofZ 500) then
    [SetError (Some "Stack must be between 1 and 500 BB"%string)]
  else
    [SetLoading true; SetError None;
     AnalyzeSpot
       {| hero_position := heroPosition st;
          villain_position :=
            if String.eqb (scenarioMode st) "rfi" then "BB"%string
            else villainPosition st;
          stack := parseStack (stackSize st);
          hand := heroCards st |}]
    ++ settle reply ++ [SetLoading false].

(** The requests among the effects. *)
Definition requests (effs : list Effect) : list SpotRequest :=
  omap (fun e => match e with AnalyzeSpot r => Some r | _ => None end) effs.

(** The state updates among the effects, applied in order. *)
Definition apply (st : State) (e : Effect) : State :=
  match e with
  | SetError err =>
      {| tableSize := tableSize st; heroCards := heroCards st;
         heroPosition := heroPosition st;
         villainPosition := villainPosition st;
         stackSize := stackSize st; scenarioMode := scenarioMode st;
         showCardSelector := showCardSelector st; result := result st;
         loading := loading st; error := err |}
  | SetLoading b =>
      {| tableSize := tableSize st; heroCards := heroCards st;
         heroPosition := heroPosition st;
         villainPosition := villainPosition st;
         stackSize := stackSize st; scenarioMode := scenarioMode st;
         showCardSelector := showCardSelector st; result := result st;
         loading := b; error := error st |}
  | SetResult r =>
      {| tableSize := tableSize st; heroCards := heroCards st;
         heroPosition := heroPosition st;
         villainPosition := villainPosition st;
         stackSize := stackSize st; scenarioMode := scenarioMode st;
         showCardSelector := showCardSelector st; result := Some r;
         loading := loading st; error := error st |}
  | AnalyzeSpot _ => st
  end.

Definition afterAnalyze (st : State) (reply : Reply) : State :=
  fold_left apply (handleAnalyze st reply) st.

End PokerTable.

(* ================================================================== *)
(** * PokerTable.jsx, earlier version (6-max only)                      *)
(* ================================================================== *)

Module PokerTableV1.

(** The earlier component keeps the stack as one of the preset numbers
    and sends it as it is; it has no stack check. *)
Record State : Type := mkState {
  heroCards : list string;
  heroPosition : string;
  villainPosition : string;
  stackSize : Z
}.

Record SpotRequest : Type := mkRequest {
  hero_position : string;
  villain_position : string;
  stack : Z;
  hand : list string
}.

Inductive Effect : Type :=
| SetError (e : option string)
| SetLoading (b : bool)
| SetResult (r : Advisor.Result)
| AnalyzeSpot (req : SpotRequest).

Definition settle (reply : PokerTable.Reply) : list Effect :=
  match reply with
  | PokerTable.Resolved r => [SetResult r]
  | PokerTable.Rejected detail =>
      [SetError (Some (PokerTable.failureText detail))]
  end.

Definition handleAnalyze (st : State) (reply : PokerTable.Reply)
    : list Effect :=
  if negb (length (heroCards st) =? 2)%nat then
    [SetError (Some "Please select 2 cards"%string)]
  else
    [SetLoading true; SetError None;
     AnalyzeSpot
       {| hero_position := heroPosition st;
          villain_position := villainPosition st;
          stack := stackSize st;
          hand := heroCards st |}]
    ++ settle reply ++ [SetLoading false].

Definition requests (effs : list Effect) : list SpotRequest :=
  omap (fun e => match e with AnalyzeSpot r => Some r | _ => None end) effs.

End PokerTableV1.

(* ================================================================== *)
(** * The equity engine of the specification                            *)
(* ================================================================== *)

Module Equity.

Section Engine.

(** Modelled from the spec: the card type and the hand evaluator of
    section 4.2, which the sources do not contain.  The evaluator maps
    the cards a player can use (hole cards and the five board cards) to
    "a comparable strength value"; equal values are a tie at
    showdown. *)
Variable Card : Type.
Variable evaluate : list Card → Z.

(** How one completed board ends for one hand. *)
Inductive Outcome : Type := Win | Tie | Lose.

(** Modelled from the spec: the showdown of section 4.3.  Every hand's
    strength over hole cards and completed board; the hands of maximal
    strength are the winners, a sole winner wins and several winners
    tie. *)
Definition strength (board hole : list Card) : Z :=
  evaluate (hole ++ board).

Definition best (board : list Card) (hands : list (list Card)) : Z :=
  match strength board <$> hands with
  | [] => 0
  | s :: ss => foldr Z.max s ss
  end.

Definition winners (board : list Card) (hands : list (list Card)) : nat :=
  length (filter (fun h => strength board h = best board hands) hands).

Definition showdown (hands : list (list Card)) (hole board : list Card)
    : Outcome :=
  if strength board hole <? best board hands then Lose
  else if (winners board hands <=? 1)%nat then Win
  else Tie.

(** Modelled from the spec: the EquityResult of section 3, with its
    win, tie and loss counts, the number of trials and the exactness
    flag. *)
Record EquityResult : Type := mkEquity {
  wins : nat;
  ties : nat;
  losses : nat;
  trials : nat;
  exact : bool
}.

Definition count (o : Outcome) (r : EquityResult) : EquityResult :=
  match o with
  | Win => mkEquity (S (wins r)) (ties r) (losses r) (S (trials r)) (exact r)
  | Tie => mkEquity (wins r) (S (ties r)) (losses r) (S (trials r)) (exact r)
  | Lose => mkEquity (wins r) (ties r) (S (losses r)) (S (trials r)) (exact r)
  end.

(** Modelled from the spec: the aggregation loop of section 4.3 over
    the board completions chosen by the strategy selector of section
    4.4 (all of them, or the sampled ones): one evaluation and one
    increment of [trials] for each completion. *)
Definition aggregate (isExact : bool) (hands : list (list Card))
    (completions : list (list Card)) (hole : list Card) : EquityResult :=
  fold_left (fun r board => count (showdown hands hole board) r)
            completions (mkEquity 0 0 0 0 isExact).

(** Modelled from the spec: the per-hand output of section 6, the
    three counts divided by the number of trials.  The quotients are
    exact rationals; their rounding to floating point is not
    modelled. *)
Definition ratio (n total : nat) : Q :=
  (inject_Z (Z.of_nat n) / inject_Z (Z.of_nat total))%Q.

Definition win_probability (r : EquityResult) : Q := ratio (wins r) (trials r).
Definition tie_probability (r : EquityResult) : Q := ratio (ties r) (trials r).
Definition lose_probability (r : EquityResult) : Q :=
  ratio (losses r) (trials r).

(** One result for each hand of the request. *)
Definition equity (isExact : bool) (hands : list (list Card))
    (completions : list (list Card)) : list EquityResult :=
  aggregate isExact hands completions <$> hands.

End Engine.

(** Modelled from the spec: the "floating-point tolerance" of section 6.
    A rounding function [fl] stands for the conversion of an exact
    non-negative result to binary64; it is within the unit roundoff
    [2^-53] of its argument, relatively.  The output adds the three
    rounded quotients left to right, rounding each sum. *)
Definition unit_roundoff : Q := 1 # (2 ^ 53).

Definition rounding (fl : Q → Q) : Prop :=
  ∀ x : Q, (0 <= x → x * (1 - unit_roundoff) <= fl x
                    ∧ fl x <= x * (1 + unit_roundoff))%Q.

Definition rounded_sum (fl : Q → Q) (r : EquityResult) : Q :=
  fl (fl (fl (win_probability r) + fl (tie_probability r))
      + fl (lose_probability r))%Q.

End Equity.

(* ================================================================== *)
(** * CardSelectorModal.jsx: the card grid                              *)
(* ================================================================== *)

Module CardGrid.

(** The [suits] constant of the modal, one row of the grid for each. *)
Definition suits : list string := ["s"; "h"; "d"; "c"]%string.

(** [c[1]] as the one-character string it is, [None] for [undefined]. *)
Definition suitOf (c : string) : option string :=
  (fun ch => String ch EmptyString) <$> JS.charAt c 1.

(** [ALL_CARDS.filter(c => c[1] === suit)] *)
Definition suitRow (suit : string) : list string :=
  filter (fun c => suitOf c = Some suit) CardView.ALL_CARDS.

(** The rows in the order they are drawn. *)
Definition rows : list (list string) := suitRow <$> suits.

(** Drawn cards are compared field by field. *)
#[global] Instance SuitIcon_eq_dec : EqDecision CardView.SuitIcon.
Proof. solve_decision. Defined.

#[global] Instance Face_eq_dec : EqDecision CardView.Face.
Proof. solve_decision. Defined.

#[global] Instance View_eq_dec : EqDecision CardView.View.
Proof. solve_decision. Defined.

End CardGrid.

(* ================================================================== *)
(** * Text in the ASCII range                                           *)
(* ================================================================== *)

Module Text.

(** Whether every character of a string is an ASCII character, the range
    on which [JS.toLowerCase] and [JS.toUpperCase] are the built-ins. *)
Fixpoint asciiOnly (s : string) : bool :=
  match s with
  | EmptyString => true
  | String c r => (N_of_ascii c <? 128)%N && asciiOnly r
  end.

End Text.

(* ================================================================== *)
(** * PokerTable.jsx: what is drawn and the state setters              *)
(* ================================================================== *)

Module TableView.
Import PokerTable.

(** Positions are compared field by field. *)
#[global] Instance Position_eq_dec : EqDecision Position.
Proof. solve_decision. Defined.

(** [Object.keys(TABLE_CONFIGS)], the table size buttons. *)
Definition tableSizes : list string := ["6-max"; "9-max"; "heads-up"]%string.

(** The ids of [SCENARIO_MODES], the scenario buttons. *)
Definition scenarioModes : list string := ["rfi"; "vs"]%string.

(** The preset stack buttons, [[20, 50, 100]]. *)
Definition stackPresets : list Z := [20; 50; 100].

Definition setHeroCards (cards : list string) (st : State) : State :=
  {| tableSize := tableSize st; heroCards := cards;
     heroPosition := heroPosition st; villainPosition := villainPosition st;
     stackSize := stackSize st; scenarioMode := scenarioMode st;
     showCardSelector := showCardSelector st; result := result st;
     loading := loading st; error := error st |}.

Definition setHeroPosition (pos : string) (st : State) : State :=
  {| tableSize := tableSize st; heroCards := heroCards st;
     heroPosition := pos; villainPosition := villainPosition st;
     stackSize := stackSize st; scenarioMode := scenarioMode st;
     showCardSelector := showCardSelector st; result := result st;
     loading := loading st; error := error st |}.

Definition setVillainPosition (pos : string) (st : State) : State :=
  {| tableSize := tableSize st; heroCards := heroCards st;
     heroPosition := heroPosition st; villainPosition := pos;
     stackSize := stackSize st; scenarioMode := scenarioMode st;
     showCardSelector := showCardSelector st; result := result st;
     loading := loading st; error := error st |}.

Definition setStackSize (s : StackSize) (st : State) : State :=
  {| tableSize := tableSize st; heroCards := heroCards st;
     heroPosition := heroPosition st; villainPosition := villainPosition st;
     stackSize := s; scenarioMode := scenarioMode st;
     showCardSelector := showCardSelector st; result := result st;
     loading := loading st; error := error st |}.

Definition setScenarioMode (mode : string) (st : State) : State :=
  {| tableSize := tableSize st; heroCards := heroCards st;
     heroPosition := heroPosition st; villainPosition := villainPosition st;
     stackSize := stackSize st; scenarioMode := mode;
     showCardSelector := showCardSelector st; result := result st;
     loading := loading st; error := error st |}.

Definition setShowCardSelector (b : bool) (st : State) : State :=
  {| tableSize := tableSize st; heroCards := heroCards st;
     heroPosition := heroPosition st; villainPosition := villainPosition st;
     stackSize := stackSize st; scenarioMode := scenarioMode st;
     showCardSelector := b; result := result st;
     loading := loading st; error := error st |}.

(** The Analyze button: [disabled={heroCards.length !== 2 || loading}]. *)
Definition analyzeDisabled (st : State) : bool :=
  negb (length (heroCards st) =? 2)%nat || loading st.

(** [pos.id === heroPosition] *)
Definition isHeroSeat (st : State) (pos : Position) : bool :=
  bool_decide (id pos = heroPosition st).

(** [scenarioMode === 'vs' && pos.id === villainPosition] *)
Definition isVillainSeat (st : State) (pos : Position) : bool :=
  String.eqb (scenarioMode st) "vs" && bool_decide (id pos = villainPosition st).

(** How a seat is drawn: the hero's ring and label first, the villain's
    next, the plain seat otherwise. *)
Inductive SeatStyle : Type := HeroSeat | VillainSeat | PlainSeat.

#[global] Instance SeatStyle_eq_dec : EqDecision SeatStyle.
Proof. solve_decision. Defined.

Definition seatStyle (st : State) (pos : Position) : SeatStyle :=
  if isHeroSeat st pos then HeroSeat
  else if isVillainSeat st pos then VillainSeat
  else PlainSeat.

(** [positions.map(pos => ...)]: the seats around the table. *)
Definition seats (st : State) : list (Position * SeatStyle) :=
  (fun pos => (pos, seatStyle st pos)) <$> currentPositions st.

(** [onClick={isHeroSeat ? () => setShowCardSelector(true) : undefined}] *)
Definition seatClick (pos : Position) (st : State) : State :=
  if isHeroSeat st pos then setShowCardSelector true st else st.

(** [handleAnalyze] around its [await]: what runs at the click, up to the
    call, and what runs when the call has ended. *)
Definition analyzeNow (st : State) : list Effect :=
  if negb (length (heroCards st) =? 2)%nat then
    [SetError (Some "Please select 2 cards"%string)]
  else if JS.lt (stackToNumber (stackSize st)) (JS.ofZ 1)
          || JS.gt (stackToNumber (stackSize st)) (JS.ofZ 500) then
    [SetError (Some "Stack must be between 1 and 500 BB"%string)]
  else
    [SetLoading true; SetError None;
     AnalyzeSpot
       {| hero_position := heroPosition st;
          villain_position :=
            if String.eqb (scenarioMode st) "rfi" then "BB"%string
            else villainPosition st;
          stack := parseStack (stackSize st);
          hand := heroCards st |}].

Definition analyzeLater (reply : Reply) : list Effect :=
  settle reply ++ [SetLoading false].

End TableView.

(* ================================================================== *)
(** * The table and its modal as one machine                            *)
(* ================================================================== *)

Module App.
Import PokerTable TableView.

(** The state of [PokerTable], the selection kept by the mounted
    [CardSelectorModal], and the [analyzeSpot] calls not yet answered. *)
Record State : Type := mkApp {
  table : PokerTable.State;
  tempSelection : list string;
  pending : list SpotRequest
}.

Definition initial : State :=
  {| table := initialState;
     tempSelection :=
       CardSelector.initialSelection (modalProps initialState);
     pending := [] |}.

(** What can happen: the user's clicks and inputs, and the end of an
    awaited call. *)
Inductive Event : Type :=
| ClickTableSize (size : string)
| ClickScenario (mode : string)
| SelectHero (pos : string)
| SelectVillain (pos : string)
| TypeStack (text : string)
| ClickPreset (size : Z)
| ClickSeat (pos : Position)
| InModal (e : CardSelector.Event)
| ClickAnalyze
| ReplyArrives (reply : Reply).

(** Whether the page, as drawn in state [s], lets the event happen: the
    button, option, seat or card exists and is enabled.  The stack field
    may hold any text. *)
Definition offered (s : State) (e : Event) : bool :=
  match e with
  | ClickTableSize size => bool_decide (size ∈ tableSizes)
  | ClickScenario mode => bool_decide (mode ∈ scenarioModes)
  | SelectHero pos => bool_decide (pos ∈ id <$> currentPositions (table s))
  | SelectVillain pos =>
      String.eqb (scenarioMode (table s)) "vs"
      && bool_decide (pos ∈ id <$> villainOptions (table s))
  | TypeStack _ => true
  | ClickPreset size => bool_decide (size ∈ stackPresets)
  | ClickSeat pos => bool_decide (pos ∈ currentPositions (table s))
  | InModal e =>
      showCardSelector (table s)
      && match e with
         | CardSelector.ClickCard card =>
             bool_decide (card ∈ CardView.ALL_CARDS)
         | CardSelector.ClickClear =>
             negb (bool_decide (tempSelection s = []))
         | CardSelector.ClickConfirm =>
             CardSelector.confirmEnabled (modalProps (table s))
                                         (tempSelection s)
         | CardSelector.ClickCancel => true
         end
  | ClickAnalyze => negb (analyzeDisabled (table s))
  | ReplyArrives _ => match pending s with [] => false | _ :: _ => true end
  end.

(** [onSelect={setHeroCards}] and
    [onClose={() => setShowCardSelector(false)}]. *)
Definition modalEffect (st : PokerTable.State) (e : CardSelector.Effect)
    : PokerTable.State :=
  match e with
  | CardSelector.OnSelect cards => setHeroCards cards st
  | CardSelector.OnClose => setShowCardSelector false st
  end.

(** One event: the next state and the requests sent. *)
Definition step (s : State) (e : Event) : State * list SpotRequest :=
  match e with
  | ClickTableSize size =>
      (mkApp (default (table s) (handleTableSizeChange size (table s)))
             (tempSelection s) (pending s), [])
  | ClickScenario mode =>
      (mkApp (setScenarioMode mode (table s)) (tempSelection s) (pending s), [])
  | SelectHero pos =>
      (mkApp (setHeroPosition pos (table s)) (tempSelection s) (pending s), [])
  | SelectVillain pos =>
      (mkApp (setVillainPosition pos (table s)) (tempSelection s) (pending s),
       [])
  | TypeStack text =>
      (mkApp (setStackSize (StackText text) (table s)) (tempSelection s)
             (pending s), [])
  | ClickPreset size =>
      (mkApp (setStackSize (StackNumber size) (table s)) (tempSelection s)
             (pending s), [])
  | ClickSeat pos =>
      (mkApp (seatClick pos (table s)) (tempSelection s) (pending s), [])
  | InModal e =>
      let '(sel, effs) :=
        CardSelector.step (modalProps (table s)) (tempSelection s) e in
      (mkApp (fold_left modalEffect effs (table s)) sel (pending s), [])
  | ClickAnalyze =>
      let effs := analyzeNow (table s) in
      (mkApp (fold_left apply effs (table s)) (tempSelection s)
             (pending s ++ requests effs),
       requests effs)
  | ReplyArrives reply =>
      (mkApp (fold_left apply (analyzeLater reply) (table s))
             (tempSelection s) (tail (pending s)), [])
  end.

(** A sequence of events, each of which must be offered when its turn
    comes: the state reached and every request sent, in order. *)
Fixpoint run (s : State) (es : list Event) : option (State * list SpotRequest) :=
  match es with
  | [] => Some (s, [])
  | e :: es' =>
      if offered s e then
        let '(s', sent) := step s e in
        match run s' es' with
        | Some (s'', sent') => Some (s'', sent ++ sent')
        | None => None
        end
      else None
  end.

(** The states the page can be in. *)
Definition reachable (s : State) : Prop :=
  ∃ es sent, run initial es = Some (s, sent).

(** Two different cards of the deck. *)
Definition holeHand (cards : list string) : Prop :=
  ∃ a b, cards = [a; b] ∧ a ≠ b
         ∧ a ∈ CardView.ALL_CARDS ∧ b ∈ CardView.ALL_CARDS.

(** The answers that have arrived among the events. *)
Definition isReply (e : Event) : bool :=
  match e with
  | ReplyArrives _ => true
  | _ => false
  end.

Definition replies (es : list Event) : nat :=
  length (filter (fun e => isReply e = true) es).

(** What holds of the page at all times (shown below): the table size is
    one of the three, both seats are seats of that table, the mode is one
    of the two, the hero holds no cards or two different cards of the
    deck, the modal's selection is duplicate free, of at most two cards
    and within the deck, and a call is awaited exactly while [loading] is
    set, one at most. *)
Record invariant (s : State) : Prop := mkInvariant {
  inv_size : is_Some (TABLE_CONFIGS !! tableSize (table s));
  inv_hero : heroPosition (table s) ∈ id <$> currentPositions (table s);
  inv_villain : villainPosition (table s) ∈ id <$> currentPositions (table s);
  inv_mode : scenarioMode (table s) ∈ scenarioModes;
  inv_cards : heroCards (table s) = [] ∨ holeHand (heroCards (table s));
  inv_temp :
    NoDup (tempSelection s) ∧ (length (tempSelection s) ≤ 2)%nat
    ∧ ∀ c, c ∈ tempSelection s → c ∈ CardView.ALL_CARDS;
  inv_pending :
    (pending s = [] ∧ loading (table s) = false)
    ∨ (∃ req, pending s = [req] ∧ loading (table s) = true)
}.

End App.

(* ================================================================== *)
(** * Properties                                                        *)
(* ================================================================== *)

(** Closes a goal about concrete data by evaluating its decision
    procedure. *)
Ltac by_evaluation := apply (bool_decide_unpack _); vm_compute; exact I.

(** Splits a character into its 256 values. *)
Ltac each_char c := destruct c as [[] [] [] [] [] [] [] []].

(** ** The deck *)

Section Deck.
Import CardView.

Lemma ALL_CARDS_length : length ALL_CARDS = 52%nat.
Proof. reflexivity. Qed.

Lemma ALL_CARDS_NoDup : NoDup ALL_CARDS.
Proof. by_evaluation. Qed.

Lemma ALL_CARDS_two_characters :
  Forall (fun c => String.length c = 2%nat) ALL_CARDS.
Proof. by_evaluation. Qed.

(** C2. [ALL_CARDS] holds 52 tokens, no two of them equal, and a token
    is in it exactly when it is a rank character among
    A K Q J T 9 8 7 6 5 4 3 2 followed by a suit character among
    s h d c; so there is one token for each of the 13 x 4
    combinations. *)
Theorem ALL_CARDS_is_the_deck :
  length ALL_CARDS = 52%nat ∧
  NoDup ALL_CARDS ∧
  ∀ c : string,
    c ∈ ALL_CARDS ↔
    ∃ r s : ascii,
      r ∈ ["A"; "K"; "Q"; "J"; "T"; "9"; "8"; "7"; "6"; "5"; "4"; "3"; "2"]%char
      ∧ s ∈ ["s"; "h"; "d"; "c"]%char
      ∧ c = String r (String s EmptyString).
Proof.
  split; [reflexivity |]. split; [by_evaluation |].
  intros c. split.
  - intros H.
    cbv [ALL_CARDS ranks suits flat_map map app String.append] in H.
    repeat (apply elem_of_cons in H; destruct H as [-> | H];
            [eexists _, _; split; [| split; [| reflexivity]];
             by_evaluation |]).
    by apply elem_of_nil in H.
  - intros (r & s & Hr & Hs & ->).
    repeat (apply elem_of_cons in Hr; destruct Hr as [-> | Hr]);
      try (by apply elem_of_nil in Hr);
      repeat (apply elem_of_cons in Hs; destruct Hs as [-> | Hs]);
      try (by apply elem_of_nil in Hs);
      by_evaluation.
Qed.

End Deck.

(** ** The card face *)

Section CardFace.
Import CardView.

Lemma Card_empty : Card None = EmptySlot ∧ Card (Some EmptyString) = EmptySlot.
Proof. split; reflexivity. Qed.

Lemma redSuit_spec (suit : option ascii) :
  redSuit suit = true ↔ suit = Some "h"%char ∨ suit = Some "d"%char.
Proof.
  destruct suit as [c |]; simpl.
  - rewrite orb_true_iff, !bool_decide_eq_true.
    split; (intros [H | H]; [left | right]); congruence.
  - split; [discriminate | intros [H | H]; discriminate].
Qed.

(** C7. For a non-empty token, [Card] draws a face: the rank shown is
    the token's first character, with "10" in place of "T"; the second
    character is the suit, which picks the icon, and the face is red
    exactly when that character exists and is "h" or "d". *)
Theorem Card_rank_and_suit (card : string) :
  card ≠ EmptyString →
  ∃ (rank : ascii) (rest : string) (f : Face),
    card = String rank rest ∧
    Card (Some card) = Drawn f ∧
    displayRank f =
      (if decide (rank = "T"%char) then "10"%string
       else String rank EmptyString) ∧
    (isRed f = true ↔
     ∃ (suit : ascii) (rest' : string),
       rest = String suit rest' ∧ (suit = "h"%char ∨ suit = "d"%char)) ∧
    icon f = suitIcon (JS.charAt rest 0).
Proof.
  intros Hne. destruct card as [| rank rest]; [done |].
  eexists rank, rest, _. split; [reflexivity |].
  split; [reflexivity |]. simpl. split; [| split; [| reflexivity]].
  - destruct (decide (rank = "T"%char)) as [-> | Hr]; [reflexivity |].
    unfold rankText.
    each_char rank; try reflexivity.
    by destruct Hr.
  - rewrite redSuit_spec. unfold JS.charAt. simpl.
    destruct rest as [| suit rest']; simpl.
    + split; [intros [? | ?]; discriminate | intros (? & ? & ? & _); discriminate].
    + split.
      * intros [H | H]; injection H as ->; eauto.
      * intros (s & r & H & Hs). injection H as -> ->.
        destruct Hs as [-> | ->]; eauto.
Qed.

Lemma Card_rank_and_suit_witness :
  ∃ (rank : ascii) (rest : string) (f : Face),
    "Td"%string = String rank rest ∧
    Card (Some "Td"%string) = Drawn f ∧
    displayRank f =
      (if decide (rank = "T"%char) then "10"%string
       else String rank EmptyString) ∧
    (isRed f = true ↔
     ∃ (suit : ascii) (rest' : string),
       rest = String suit rest' ∧ (suit = "h"%char ∨ suit = "d"%char)) ∧
    icon f = suitIcon (JS.charAt rest 0).
Proof. apply (Card_rank_and_suit "Td"). discriminate. Defined.

End CardFace.

(** ** The card selector *)

Section Selector.
Import CardSelector.

Lemma includes_spec (x : string) (arr : list string) :
  JS.includes x arr = true ↔ x ∈ arr.
Proof. unfold JS.includes. apply bool_decide_eq_true. Qed.

Lemma includes_false (x : string) (arr : list string) :
  JS.includes x arr = false ↔ x ∉ arr.
Proof. unfold JS.includes. apply bool_decide_eq_false. Qed.

Lemma wellFormed_nil (p : Props) : wellFormed p [].
Proof.
  split; [constructor |]. split; [| simpl; lia].
  intros c Hc. by apply elem_of_nil in Hc.
Qed.

(** A click on a card keeps the selection well formed: it removes the
    card, or adds a card that is new, enabled and still fits. *)
Lemma handleCardClick_wellFormed (p : Props) (sel : list string) (card : string) :
  wellFormed p sel → wellFormed p (handleCardClick p sel card).
Proof.
  intros (Hnd & Hdis & Hlen). unfold handleCardClick.
  destruct (JS.includes card (disabledCards p)) eqn:Hd; [done |].
  apply includes_false in Hd.
  destruct (JS.includes card sel) eqn:Hs.
  - split; [by apply NoDup_filter |]. split.
    + intros c Hc. apply list_elem_of_filter in Hc as [_ Hc]. auto.
    + pose proof (length_filter (λ c : string, c ≠ card) sel). lia.
  - apply includes_false in Hs.
    destruct (length sel <? maxCards p)%nat eqn:Hlt; [| done].
    apply Nat.ltb_lt in Hlt. split; [| split].
    + apply NoDup_app. split; [done |]. split; [| apply NoDup_singleton].
      intros c Hc Hc'. apply list_elem_of_singleton in Hc' as ->. done.
    + intros c Hc. apply elem_of_app in Hc as [Hc | Hc]; [auto |].
      apply list_elem_of_singleton in Hc as ->. done.
    + rewrite length_app. simpl. lia.
Qed.

Lemma step_wellFormed (p : Props) (sel : list string) (e : Event) :
  wellFormed p sel → wellFormed p (step p sel e).1.
Proof.
  intros H. destruct e; simpl; auto using handleCardClick_wellFormed,
    wellFormed_nil.
  by destruct (confirmEnabled p sel).
Qed.

(** [onSelect] is only ever called by an enabled Confirm button, with
    the selection of that moment, which then has [maxCards] cards. *)
Lemma step_selectedHands (p : Props) (sel : list string) (e : Event) :
  Forall (fun hand => hand = sel ∧ length hand = maxCards p)
         (selectedHands (step p sel e).2).
Proof.
  destruct e; simpl; try constructor.
  unfold confirmEnabled.
  destruct (length sel =? maxCards p)%nat eqn:Heq; simpl; [| constructor].
  apply Nat.eqb_eq in Heq. repeat constructor; done.
Qed.

Lemma selectedHands_app (a b : list Effect) :
  selectedHands (a ++ b) = selectedHands a ++ selectedHands b.
Proof. unfold selectedHands. apply omap_app. Qed.

Lemma run_unfold (p : Props) (sel : list string) (e : Event) (es : list Event) :
  run p sel (e :: es) =
    (sel :: (run p (step p sel e).1 es).1,
     (step p sel e).2 ++ (run p (step p sel e).1 es).2).
Proof.
  simpl. destruct (step p sel e) as [next out]. simpl.
  destruct (run p next es) as [sels outs]. reflexivity.
Qed.

(** The invariant along a whole run, from any well-formed selection. *)
Lemma run_wellFormed (p : Props) (es : list Event) :
  ∀ sel, wellFormed p sel →
    Forall (wellFormed p) (run p sel es).1 ∧
    Forall (fun hand => length hand = maxCards p ∧ wellFormed p hand)
           (selectedHands (run p sel es).2).
Proof.
  induction es as [| e es IH]; intros sel Hsel.
  - simpl. split; [| constructor]. constructor; [exact Hsel | constructor].
  - rewrite run_unfold. simpl.
    destruct (IH _ (step_wellFormed p sel e Hsel)) as [IHs IHh].
    split; [by constructor |].
    rewrite selectedHands_app. apply Forall_app. split; [| done].
    eapply Forall_impl; [apply step_selectedHands |].
    intros hand [-> Hlen]. done.
Qed.

(** Without any assumption on the selection the modal starts from, a
    hand still leaves it only with exactly [maxCards] cards. *)
Lemma run_selectedHands_length (p : Props) (es : list Event) :
  ∀ sel, Forall (fun hand => length hand = maxCards p)
                (selectedHands (run p sel es).2).
Proof.
  induction es as [| e es IH]; intros sel.
  - constructor.
  - rewrite run_unfold. simpl. rewrite selectedHands_app.
    apply Forall_app. split; [| apply IH].
    eapply Forall_impl; [apply step_selectedHands |]. by intros hand [_ ?].
Qed.

(** C1. Started from a selection that is itself duplicate free, without
    disabled card and of at most [maxCards] cards (the table mounts the
    modal with the empty hand), the selection stays so through every
    sequence of clicks, and every hand given to [onSelect] has exactly
    [maxCards] cards, all different and none disabled. *)
Theorem selection_invariant (p : Props) (es : list Event) :
  wellFormed p (selectedCards p) →
  Forall (fun sel =>
            NoDup sel ∧ (∀ c, c ∈ sel → c ∉ disabledCards p) ∧
            (length sel ≤ maxCards p)%nat)
         (session p es).1 ∧
  Forall (fun hand =>
            length hand = maxCards p ∧ NoDup hand ∧
            (∀ c, c ∈ hand → c ∉ disabledCards p))
         (selectedHands (session p es).2).
Proof.
  intros Hinit. unfold session, initialSelection.
  destruct (run_wellFormed p es _ Hinit) as [Hs Hh]. split; [exact Hs |].
  eapply Forall_impl; [exact Hh |].
  intros hand (Hlen & Hnd & Hdis & _). done.
Qed.

End Selector.

Section SelectorInTable.
Import CardSelector.

Lemma selection_invariant_witness :
  wellFormed (PokerTable.modalProps PokerTable.initialState) [] ∧
  Forall (fun sel =>
            NoDup sel ∧ (∀ c, c ∈ sel → c ∉ @nil string) ∧
            (length sel ≤ 2)%nat)
         (session (PokerTable.modalProps PokerTable.initialState)
            [ClickCard "Ah"; ClickCard "Ah"; ClickCard "Kd";
             ClickCard "Qs"; ClickCard "Ah"; ClickConfirm;
             ClickCard "Kd"; ClickConfirm]).1 ∧
  Forall (fun hand =>
            length hand = 2%nat ∧ NoDup hand ∧
            (∀ c, c ∈ hand → c ∉ @nil string))
         (selectedHands
            (session (PokerTable.modalProps PokerTable.initialState)
               [ClickCard "Ah"; ClickCard "Ah"; ClickCard "Kd";
                ClickCard "Qs"; ClickCard "Ah"; ClickConfirm;
                ClickCard "Kd"; ClickConfirm]).2).
Proof.
  assert (Hinit : wellFormed (PokerTable.modalProps PokerTable.initialState) []).
  { split; [constructor |]. split; [| simpl; lia].
    intros c Hc. inversion Hc. }
  split; [exact Hinit |].
  apply (selection_invariant
           (PokerTable.modalProps PokerTable.initialState)
           [ClickCard "Ah"; ClickCard "Ah"; ClickCard "Kd";
            ClickCard "Qs"; ClickCard "Ah"; ClickConfirm;
            ClickCard "Kd"; ClickConfirm]).
  exact Hinit.
Defined.

(** In the table, where the modal is mounted over the empty hand with
    [maxCards = 2], every hand that reaches [setHeroCards] is a pair of
    two different cards. *)
Lemma table_hole_hand_two_distinct (es : list Event) :
  Forall (fun hand => ∃ a b : string, hand = [a; b] ∧ a ≠ b)
         (selectedHands
            (session (PokerTable.modalProps PokerTable.initialState) es).2).
Proof.
  set (p := PokerTable.modalProps PokerTable.initialState).
  destruct (run_wellFormed p es (selectedCards p) (wellFormed_nil p))
    as [_ Hh].
  eapply Forall_impl; [exact Hh |].
  intros hand (Hlen & Hnd & _).
  destruct hand as [| a [| b [| ? ?]]]; try discriminate.
  exists a, b. split; [reflexivity |].
  apply NoDup_cons in Hnd as [Hab _]. intros ->. apply Hab. left.
Qed.

End SelectorInTable.

(** ** The advisor panel *)

Section AdvisorPanel.
Import Advisor.

(** C5. While a result is shown (not loading), the "Default suggestion
    (hand not in database)" line is drawn exactly when the field
    [found_in_database] is the boolean [false]; it is left out for
    [true], for an absent or [undefined] field and for every other value.
    The skeleton and the prompt never carry the line. *)
Theorem default_suggestion_indicator :
  (∀ r : Result,
     showsDefaultSuggestion (Advisor (Some r) false) = true ↔
     found_in_database r = JS.JBool false) ∧
  (∀ result : option Result,
     showsDefaultSuggestion (Advisor result true) = false) ∧
  showsDefaultSuggestion (Advisor None false) = false.
Proof.
  split; [| split; [intros [r |]; reflexivity | reflexivity]].
  intros r. simpl. unfold databaseIndicator.
  destruct (found_in_database r) as [| | [] | | |]; simpl;
    split; (reflexivity || discriminate).
Qed.

Lemma default_suggestion_values (a : option string) :
  let shown v :=
    showsDefaultSuggestion (Advisor (Some (mkResult a v)) false) in
  shown (JS.JBool false) = true ∧
  shown (JS.JBool true) = false ∧
  shown JS.JUndefined = false ∧
  shown JS.JNull = false ∧
  shown (JS.JNum 0) = false ∧
  shown (JS.JStr EmptyString) = false.
Proof. repeat split. Qed.

(** Colour and headline depend on the result through [action] alone. *)
Lemma presentation_depends_on_action (r1 r2 : Result) :
  action r1 = action r2 →
  colorClass r1 = colorClass r2 ∧ label r1 = label r2.
Proof.
  intros H. unfold colorClass, label, actionKey. by rewrite H.
Qed.

Lemma toLowerCase_empty (a : string) :
  JS.toLowerCase a = EmptyString ↔ a = EmptyString.
Proof. destruct a; simpl; split; (reflexivity || discriminate). Qed.

Lemma actionKey_lowered (r : Result) (a : string) :
  action r = Some a → a ≠ EmptyString → actionKey r = JS.toLowerCase a.
Proof.
  intros Ha Hne. unfold actionKey. rewrite Ha. simpl.
  destruct (JS.toLowerCase a) eqn:E; [| reflexivity].
  apply (proj1 (toLowerCase_empty a)) in E. contradiction.
Qed.

(** The five known actions, in any letter case. *)
Lemma known_actions (r : Result) (a : string) :
  action r = Some a →
  (JS.toLowerCase a = "raise"%string →
     colorClass r = JS.JStr "from-green-600 to-emerald-700 border-green-500"
     ∧ label r = JS.JStr "RAISE") ∧
  (JS.toLowerCase a = "all_in"%string →
     colorClass r = JS.JStr "from-orange-600 to-amber-700 border-orange-500"
     ∧ label r = JS.JStr "ALL-IN") ∧
  (JS.toLowerCase a = "call"%string →
     colorClass r = JS.JStr "from-blue-600 to-cyan-700 border-blue-500"
     ∧ label r = JS.JStr "CALL") ∧
  (JS.toLowerCase a = "fold"%string →
     colorClass r = JS.JStr "from-red-900 to-gray-800 border-red-700"
     ∧ label r = JS.JStr "FOLD") ∧
  (JS.toLowerCase a = "check"%string →
     colorClass r = JS.JStr "from-gray-600 to-gray-700 border-gray-500"
     ∧ label r = JS.JStr "CHECK").
Proof.
  intros Ha.
  repeat match goal with |- _ ∧ _ => split end;
    intros Hk;
    assert (Hne : a ≠ EmptyString) by (intros ->; discriminate Hk);
    unfold colorClass, label;
    rewrite (actionKey_lowered r a Ha Hne), Hk;
    split; reflexivity.
Qed.

(** A missing action, and the empty one, are shown as a fold. *)
Lemma missing_action (r : Result) :
  action r = None ∨ action r = Some EmptyString →
  colorClass r = JS.JStr foldColor ∧ label r = JS.JStr "FOLD".
Proof.
  intros [H | H]; unfold colorClass, label, actionKey; rewrite H;
    split; reflexivity.
Qed.

Lemma own_lookup_None (own : list (string * string)) (k : string) :
  k ∉ own.*1 → (list_to_map own : gmap string string) !! k = None.
Proof. apply not_elem_of_list_to_map_1. Qed.

(** An action that is none of the five and whose lower-case form names
    no member of [Object.prototype] gets the fold colour and its own
    upper-case form as headline. *)
Lemma unrecognized_action (r : Result) (a : string) :
  action r = Some a → a ≠ EmptyString →
  JS.toLowerCase a ∉ ["raise"; "all_in"; "call"; "fold"; "check"]%string →
  JS.toLowerCase a ∉ JS.Object_prototype_keys →
  colorClass r = JS.JStr foldColor ∧
  label r = JS.JStr (JS.toUpperCase a).
Proof.
  intros Ha Hne Hown Hproto.
  unfold colorClass, label. rewrite (actionKey_lowered r a Ha Hne).
  assert (Hc : actionColors !! JS.toLowerCase a = None)
    by (apply own_lookup_None; exact Hown).
  assert (Hl : actionLabels !! JS.toLowerCase a = None)
    by (apply own_lookup_None; exact Hown).
  unfold JS.get at 1 3. rewrite Hc, Hl.
  rewrite bool_decide_eq_false_2 by exact Hproto.
  rewrite Ha. split; reflexivity.
Qed.

Lemma lowerChar_not_upper (c : ascii) : JS.isUpper (JS.lowerChar c) = false.
Proof. each_char c; reflexivity. Qed.

(** Lower-casing leaves no upper-case letter. *)
Lemma toLowerCase_no_upper (a : string) :
  JS.hasUpper (JS.toLowerCase a) = false.
Proof.
  induction a as [| c a IH]; [reflexivity |]. simpl.
  by rewrite lowerChar_not_upper, IH.
Qed.

(** So the only inherited names a lower-cased action can hit are the two
    that are all lower case. *)
Lemma lowered_prototype_key (a : string) :
  JS.toLowerCase a ∈ JS.Object_prototype_keys →
  JS.toLowerCase a = "constructor"%string ∨
  JS.toLowerCase a = "__proto__"%string.
Proof.
  intros H. pose proof (toLowerCase_no_upper a) as Hup.
  unfold JS.Object_prototype_keys in H.
  repeat (apply elem_of_cons in H; destruct H as [H | H];
          [first [ by left | by right
                 | rewrite H in Hup; vm_compute in Hup; discriminate Hup ] |]).
  by apply elem_of_nil in H.
Qed.

(** C6, at the action "constructor".  The name is none of the five known
    actions, yet [actionColors["constructor"]] finds the inherited
    [Object] function, which is truthy: the colour class is that
    function and not the fold class, and the headline is the same
    function rather than "CONSTRUCTOR". *)
Theorem constructor_action_escapes_fold (v : JS.Value) :
  (actionKey (mkResult (Some "constructor"%string) v)
     ∉ ["raise"; "all_in"; "call"; "fold"; "check"]%string) ∧
  Advisor (Some (mkResult (Some "constructor"%string) v)) false =
    Panel (JS.JBuiltin "constructor") (JS.JBuiltin "constructor")
          (JS.strictly_false v) ∧
  colorClass (mkResult (Some "constructor"%string) v) ≠ JS.JStr foldColor ∧
  label (mkResult (Some "constructor"%string) v) ≠ JS.JStr "CONSTRUCTOR".
Proof.
  split; [by_evaluation |]. split; [reflexivity |].
  split; discriminate.
Qed.

End AdvisorPanel.

(** ** The table: positions *)

Section TablePositions.
Import PokerTable.

Lemma hasPosition_spec (ps : list Position) (pos : string) :
  hasPosition ps pos = true ↔ pos ∈ id <$> ps.
Proof.
  unfold hasPosition. rewrite bool_decide_eq_true, Exists_exists.
  rewrite list_elem_of_fmap. split.
  - intros (p & Hp & <-). eauto.
  - intros (p & -> & Hp). eauto.
Qed.

Lemma TABLE_CONFIGS_cases (newSize : string) (cfg : TableConfig) :
  TABLE_CONFIGS !! newSize = Some cfg →
  (newSize = "6-max"%string ∧ cfg = sixMax) ∨
  (newSize = "9-max"%string ∧ cfg = nineMax) ∨
  (newSize = "heads-up"%string ∧ cfg = headsUp).
Proof.
  intros H. apply elem_of_list_to_map_2 in H.
  repeat (apply elem_of_cons in H; destruct H as [H | H];
          [injection H as -> ->; auto |]).
  by apply elem_of_nil in H.
Qed.

(** Every configured table has a first and a second seat, and the
    second has a non-empty id. *)
Lemma TABLE_CONFIGS_two_seats (newSize : string) (cfg : TableConfig) :
  TABLE_CONFIGS !! newSize = Some cfg →
  ∃ p0 p1 rest, positions cfg = p0 :: p1 :: rest ∧ id p1 ≠ EmptyString.
Proof.
  intros H.
  destruct (TABLE_CONFIGS_cases _ _ H) as [[_ ->] | [[_ ->] | [_ ->]]];
    simpl; eexists _, _, _; (split; [reflexivity | discriminate]).
Qed.

(** The fallback of the villain seat on an arbitrary position list. *)
Lemma secondOrFirstId_spec (ps : list Position) :
  (∀ p, ps !! 1%nat = Some p → id p ≠ EmptyString →
        secondOrFirstId ps = Some (id p)) ∧
  (ps !! 1%nat = None → secondOrFirstId ps = firstId ps).
Proof.
  unfold secondOrFirstId. split.
  - intros p -> Hne. simpl.
    destruct (id p) eqn:E; [contradiction | reflexivity].
  - intros ->. reflexivity.
Qed.

(** C9. For each configured table size the handler returns, and in the
    state it leaves both seats are ids of the new position list: a hero
    seat found in the list is kept and one not found becomes the first
    id; a villain seat found is kept and one not found becomes the
    second id.  (On any list without a second entry the villain fallback
    is the first id.)  Nothing else but the table size changes. *)
Theorem handleTableSizeChange_positions
    (newSize : string) (cfg : TableConfig) (st : State) :
  TABLE_CONFIGS !! newSize = Some cfg →
  ∃ st' : State,
    handleTableSizeChange newSize st = Some st' ∧
    tableSize st' = newSize ∧
    currentPositions st' = positions cfg ∧
    heroPosition st' ∈ id <$> positions cfg ∧
    villainPosition st' ∈ id <$> positions cfg ∧
    (heroPosition st ∈ id <$> positions cfg →
       heroPosition st' = heroPosition st) ∧
    (heroPosition st ∉ id <$> positions cfg →
       (id <$> positions cfg) !! 0%nat = Some (heroPosition st')) ∧
    (villainPosition st ∈ id <$> positions cfg →
       villainPosition st' = villainPosition st) ∧
    (villainPosition st ∉ id <$> positions cfg →
       (id <$> positions cfg) !! 1%nat = Some (villainPosition st')) ∧
    (∀ ps : list Position,
       ps !! 1%nat = None → secondOrFirstId ps = firstId ps) ∧
    heroCards st' = heroCards st ∧ stackSize st' = stackSize st ∧
    scenarioMode st' = scenarioMode st.
Proof.
  intros Hcfg.
  destruct (TABLE_CONFIGS_two_seats _ _ Hcfg) as (p0 & p1 & rest & Hps & Hne).
  unfold handleTableSizeChange. rewrite Hcfg. simpl.
  assert (Hsecond : secondOrFirstId (positions cfg) = Some (id p1)).
  { apply (proj1 (secondOrFirstId_spec _)); [by rewrite Hps | done]. }
  assert (Hfirst : firstId (positions cfg) = Some (id p0))
    by (by rewrite Hps).
  rewrite Hsecond, Hfirst.
  assert (Hin0 : id p0 ∈ id <$> positions cfg)
    by (rewrite Hps; simpl; left).
  assert (Hin1 : id p1 ∈ id <$> positions cfg)
    by (rewrite Hps; simpl; right; left).
  pose proof (hasPosition_spec (positions cfg) (heroPosition st)) as Hh.
  pose proof (hasPosition_spec (positions cfg) (villainPosition st)) as Hv.
  destruct (hasPosition (positions cfg) (heroPosition st));
    destruct (hasPosition (positions cfg) (villainPosition st)); simpl;
    eexists; (split; [reflexivity |]); simpl;
    unfold currentPositions; simpl; rewrite Hcfg;
    repeat match goal with |- _ ∧ _ => split end;
    try reflexivity; try done;
    try (by apply Hh); try (by apply Hv);
    try (intros Hnot; exfalso; apply Hnot; by (apply Hh || apply Hv));
    try (intros Hin; apply Hh in Hin; discriminate Hin);
    try (intros Hin; apply Hv in Hin; discriminate Hin);
    try (intros _; by rewrite Hps);
    try (intros ps; apply (proj2 (secondOrFirstId_spec ps))).
Qed.

Lemma handleTableSizeChange_positions_witness :
  TABLE_CONFIGS !! "heads-up"%string = Some headsUp ∧
  ∃ st' : State,
    handleTableSizeChange "heads-up" (mkState "6-max" [] "UTG" "CO"
      (StackNumber 100) "vs" false None false None) = Some st' ∧
    tableSize st' = "heads-up"%string ∧
    currentPositions st' = positions headsUp ∧
    heroPosition st' ∈ id <$> positions headsUp ∧
    villainPosition st' ∈ id <$> positions headsUp ∧
    ("UTG"%string ∈ id <$> positions headsUp →
       heroPosition st' = "UTG"%string) ∧
    ("UTG"%string ∉ id <$> positions headsUp →
       (id <$> positions headsUp) !! 0%nat = Some (heroPosition st')) ∧
    ("CO"%string ∈ id <$> positions headsUp →
       villainPosition st' = "CO"%string) ∧
    ("CO"%string ∉ id <$> positions headsUp →
       (id <$> positions headsUp) !! 1%nat = Some (villainPosition st')) ∧
    (∀ ps : list Position,
       ps !! 1%nat = None → secondOrFirstId ps = firstId ps) ∧
    heroCards st' = [] ∧ stackSize st' = StackNumber 100 ∧
    scenarioMode st' = "vs"%string.
Proof.
  split; [reflexivity |].
  apply (handleTableSizeChange_positions "heads-up" headsUp
           (mkState "6-max" [] "UTG" "CO" (StackNumber 100) "vs"
                    false None false None)).
  reflexivity.
Defined.

Lemma currentPositions_fallback (st : State) :
  TABLE_CONFIGS !! tableSize st = None →
  currentPositions st = positions sixMax.
Proof. unfold currentPositions. by intros ->. Qed.

(** C8. The villain drop-down lists the positions of the current table
    in their order, leaving out exactly those whose id is the hero's
    position: an option is a position of the table with another id, so
    no option carries the hero's position. *)
Theorem villainOptions_exclude_hero (st : State) :
  villainOptions st =
    filter (fun p => id p ≠ heroPosition st) (currentPositions st) ∧
  villainOptions st `sublist_of` currentPositions st ∧
  (∀ p : Position,
     p ∈ villainOptions st ↔
     p ∈ currentPositions st ∧ id p ≠ heroPosition st) ∧
  heroPosition st ∉ id <$> villainOptions st.
Proof.
  unfold villainOptions. split; [reflexivity |].
  split; [apply sublist_filter |].
  split; [intros p; rewrite list_elem_of_filter; tauto |].
  intros Hin. apply list_elem_of_fmap in Hin as (p & Hid & Hp).
  apply list_elem_of_filter in Hp as [Hne _]. by apply Hne.
Qed.

End TablePositions.

(** ** The table: asking for an analysis *)

Section Analyze.
Import PokerTable.

(** C4. With a hand that does not have exactly two cards,
    [handleAnalyze] only sets the error "Please select 2 cards": it
    issues no request, starts no loading, and leaves the rest of the
    state alone, whatever the stack and whatever the server would have
    answered.  The earlier version of the table does the same. *)
Theorem handleAnalyze_needs_two_cards
    (st : State) (old : PokerTableV1.State) (reply : Reply) :
  length (heroCards st) ≠ 2%nat →
  length (PokerTableV1.heroCards old) ≠ 2%nat →
  (handleAnalyze st reply = [SetError (Some "Please select 2 cards"%string)] ∧
   requests (handleAnalyze st reply) = [] ∧
   error (afterAnalyze st reply) = Some "Please select 2 cards"%string ∧
   loading (afterAnalyze st reply) = loading st ∧
   result (afterAnalyze st reply) = result st) ∧
  (PokerTableV1.handleAnalyze old reply =
     [PokerTableV1.SetError (Some "Please select 2 cards"%string)] ∧
   PokerTableV1.requests (PokerTableV1.handleAnalyze old reply) = []).
Proof.
  intros Hst Hold.
  apply Nat.eqb_neq in Hst. apply Nat.eqb_neq in Hold.
  unfold afterAnalyze, handleAnalyze, PokerTableV1.handleAnalyze.
  rewrite Hst, Hold. simpl. repeat split.
Qed.

Lemma handleAnalyze_needs_two_cards_witness :
  length (heroCards initialState) ≠ 2%nat ∧
  length (PokerTableV1.heroCards
            (PokerTableV1.mkState ["Ah"%string] "BTN" "BB" 100)) ≠ 2%nat ∧
  (handleAnalyze initialState (Rejected None) =
     [SetError (Some "Please select 2 cards"%string)] ∧
   requests (handleAnalyze initialState (Rejected None)) = [] ∧
   error (afterAnalyze initialState (Rejected None)) =
     Some "Please select 2 cards"%string ∧
   loading (afterAnalyze initialState (Rejected None)) = loading initialState ∧
   result (afterAnalyze initialState (Rejected None)) = result initialState) ∧
  (PokerTableV1.handleAnalyze
     (PokerTableV1.mkState ["Ah"%string] "BTN" "BB" 100) (Rejected None) =
     [PokerTableV1.SetError (Some "Please select 2 cards"%string)] ∧
   PokerTableV1.requests
     (PokerTableV1.handleAnalyze
        (PokerTableV1.mkState ["Ah"%string] "BTN" "BB" 100) (Rejected None)) = []).
Proof.
  split; [simpl; lia |]. split; [simpl; lia |].
  apply (handleAnalyze_needs_two_cards initialState
           (PokerTableV1.mkState ["Ah"%string] "BTN" "BB" 100)
           (Rejected None)); simpl; lia.
Defined.

(** A stack that compares below 1 or above 500 is refused with the stack
    error, and nothing is sent. *)
Lemma stack_check_rejects (st : State) (reply : Reply) :
  length (heroCards st) = 2%nat →
  JS.lt (stackToNumber (stackSize st)) (JS.ofZ 1)
    || JS.gt (stackToNumber (stackSize st)) (JS.ofZ 500) = true →
  handleAnalyze st reply =
    [SetError (Some "Stack must be between 1 and 500 BB"%string)] ∧
  requests (handleAnalyze st reply) = [].
Proof.
  intros Hlen Hout. apply Nat.eqb_eq in Hlen.
  unfold handleAnalyze. rewrite Hlen, Hout. split; reflexivity.
Qed.

Lemma requests_settle (reply : Reply) :
  requests (settle reply ++ [SetLoading false]) = [].
Proof. destruct reply; reflexivity. Qed.

(** A request is made only past both checks, once, and it carries
    [parseInt(stackSize, 10)]. *)
Lemma request_sent (st : State) (reply : Reply) (req : SpotRequest) :
  req ∈ requests (handleAnalyze st reply) →
  length (heroCards st) = 2%nat ∧
  JS.lt (stackToNumber (stackSize st)) (JS.ofZ 1) = false ∧
  JS.gt (stackToNumber (stackSize st)) (JS.ofZ 500) = false ∧
  stack req = parseStack (stackSize st) ∧
  hand req = heroCards st ∧
  requests (handleAnalyze st reply) = [req].
Proof.
  unfold handleAnalyze.
  destruct (length (heroCards st) =? 2)%nat eqn:Hlen;
    destruct (JS.lt (stackToNumber (stackSize st)) (JS.ofZ 1)) eqn:Hlt;
    destruct (JS.gt (stackToNumber (stackSize st)) (JS.ofZ 500)) eqn:Hgt;
    cbn [negb orb app requests omap list_omap];
    try (intros H; by apply elem_of_nil in H).
  apply Nat.eqb_eq in Hlen.
  change (omap ?f (settle reply ++ [SetLoading false]))
    with (requests (settle reply ++ [SetLoading false])).
  rewrite requests_settle. intros H.
  apply list_elem_of_singleton in H as ->. done.
Qed.

Lemma lt_ofZ (a b : Z) : JS.lt (JS.ofZ a) (JS.ofZ b) = bool_decide (a < b).
Proof.
  unfold JS.lt, JS.ofZ, Qle_bool. simpl. rewrite !Z.mul_1_r.
  destruct (Z.leb_spec b a); symmetry;
    [apply bool_decide_eq_false | apply bool_decide_eq_true]; lia.
Qed.

(** The decimal numeral of an integer from 1 to 500 reads back as that
    integer. *)
Lemma parseInt10_integerToString (n : Z) :
  1 ≤ n ≤ 500 → JS.parseInt10 (JS.integerToString n) = JS.ofZ n.
Proof.
  intros Hn.
  assert (Hall : Forall
            (fun k => JS.parseInt10 (JS.integerToString k) = JS.ofZ k)
            (seqZ 1 500)).
  { apply Forall_forall. intros k Hk.
    apply elem_of_seqZ in Hk.
    assert (Hb : forallb
              (fun k => match JS.parseInt10 (JS.integerToString k) with
                        | JS.Fin (Qmake a 1) => a =? k
                        | _ => false
                        end) (seqZ 1 500) = true) by (vm_compute; reflexivity).
    rewrite forallb_forall in Hb.
    assert (Hin : In k (seqZ 1 500))
      by (apply list_elem_of_In, elem_of_seqZ; lia).
    specialize (Hb k Hin).
    destruct (JS.parseInt10 (JS.integerToString k)) as [| | | [a [ | | ]]];
      try discriminate.
    apply Z.eqb_eq in Hb. by subst. }
  rewrite Forall_forall in Hall. apply Hall. apply elem_of_seqZ. lia.
Qed.

(** With a numeric stack (the initial value, a preset button) the
    request carries that very number, which lies between 1 and 500. *)
Lemma request_stack_of_number
    (st : State) (reply : Reply) (req : SpotRequest) (n : Z) :
  stackSize st = StackNumber n →
  req ∈ requests (handleAnalyze st reply) →
  1 ≤ n ≤ 500 ∧ stack req = JS.ofZ n.
Proof.
  intros Hs Hreq.
  destruct (request_sent st reply req Hreq) as (_ & Hlt & Hgt & Hstack & _).
  rewrite Hs in Hlt, Hgt, Hstack.
  cbn [stackToNumber parseStack] in Hlt, Hgt, Hstack. unfold JS.gt in Hgt.
  rewrite lt_ofZ in Hlt, Hgt.
  apply bool_decide_eq_false in Hlt. apply bool_decide_eq_false in Hgt.
  assert (Hn : 1 ≤ n ≤ 500) by lia. split; [exact Hn |].
  rewrite Hstack. by apply parseInt10_integerToString.
Qed.

(** On a text of digits only, the check and [parseInt] read the same
    integer. *)
Lemma isDigit_not_space (c : ascii) :
  JS.isDigit c = true → JS.isWhiteSpace c = false.
Proof. each_char c; vm_compute; congruence. Qed.

Lemma isDigit_no_prefix (c p : ascii) :
  JS.isDigit p = true → JS.prefixRadix c p = None.
Proof.
  unfold JS.prefixRadix. destruct (bool_decide (c = "0"%char)); [| reflexivity].
  each_char p; vm_compute; congruence.
Qed.

Lemma trimStart_digits (s : string) :
  JS.allDigits s = true → JS.trimStart s = s.
Proof.
  destruct s as [| c r]; [reflexivity |]. simpl.
  intros [Hc _]%andb_true_iff. by rewrite (isDigit_not_space c Hc).
Qed.

Lemma trimEnd_digits (s : string) :
  JS.allDigits s = true → JS.trimEnd s = s.
Proof.
  induction s as [| c r IH]; [reflexivity |]. simpl.
  intros [Hc Hr]%andb_true_iff. rewrite (IH Hr).
  destruct r; [by rewrite (isDigit_not_space c Hc) | reflexivity].
Qed.

Lemma spanDigits_digits (s : string) :
  JS.allDigits s = true → JS.spanDigits s = (s, EmptyString).
Proof.
  induction s as [| c r IH]; [reflexivity |]. simpl.
  intros [Hc Hr]%andb_true_iff. by rewrite Hc, (IH Hr).
Qed.

Lemma signedDecimal_digits (s : string) :
  s ≠ EmptyString → JS.allDigits s = true →
  JS.signedDecimal s = JS.ofZ (JS.decimalValue 0 s).
Proof.
  intros Hne Hs. destruct s as [| c r]; [done |].
  pose proof (spanDigits_digits _ Hs) as Hspan.
  simpl in Hs. apply andb_true_iff in Hs as [Hc Hr].
  unfold JS.signedDecimal.
  assert (Hbody : (let '(neg, body) :=
            match String c r with
            | String "-" r0 => (true, r0)
            | String "+" r0 => (false, r0)
            | _ => (false, String c r)
            end in (neg, body)) = (false, String c r)).
  { revert Hc. each_char c; vm_compute; congruence. }
  assert (Hinf : String.eqb (String c r) "Infinity" = false).
  { revert Hc. each_char c; vm_compute; congruence. }
  revert Hbody.
  destruct (match String c r with
            | String "-" r0 => (true, r0)
            | String "+" r0 => (false, r0)
            | _ => (false, String c r)
            end) as [neg body].
  intros [= -> ->]. rewrite Hinf.
  unfold JS.unsignedDecimal. rewrite Hspan. simpl.
  unfold JS.scale10, JS.ofZ. simpl. by rewrite Z.mul_1_r.
Qed.

Lemma StringToNumber_digits (s : string) :
  s ≠ EmptyString → JS.allDigits s = true →
  JS.StringToNumber s = JS.ofZ (JS.decimalValue 0 s).
Proof.
  intros Hne Hs. unfold JS.StringToNumber, JS.trim.
  rewrite (trimStart_digits s Hs), (trimEnd_digits s Hs).
  pose proof (signedDecimal_digits s Hne Hs) as Hdec.
  destruct s as [| c [| p [| d ds]]]; [done | exact Hdec | exact Hdec |].
  simpl in Hs. apply andb_true_iff in Hs as [_ Hs].
  apply andb_true_iff in Hs as [Hp _].
  by rewrite (isDigit_no_prefix c p Hp).
Qed.

Lemma parseInt10_digits (s : string) :
  s ≠ EmptyString → JS.allDigits s = true →
  JS.parseInt10 s = JS.ofZ (JS.decimalValue 0 s).
Proof.
  intros Hne Hs. unfold JS.parseInt10. rewrite (trimStart_digits s Hs).
  destruct s as [| c r]; [done |].
  pose proof (spanDigits_digits _ Hs) as Hspan.
  simpl in Hs. apply andb_true_iff in Hs as [Hc Hr].
  assert (Hbody : match String c r with
            | String "-" r0 => (true, r0)
            | String "+" r0 => (false, r0)
            | _ => (false, String c r)
            end = (false, String c r)).
  { revert Hc. each_char c; vm_compute; congruence. }
  rewrite Hbody, Hspan. reflexivity.
Qed.

(** So a stack typed as a plain integer is sent as that integer, which
    lies between 1 and 500. *)
Lemma request_stack_of_digits
    (st : State) (reply : Reply) (req : SpotRequest) (ds : string) :
  stackSize st = StackText ds → ds ≠ EmptyString → JS.allDigits ds = true →
  req ∈ requests (handleAnalyze st reply) →
  1 ≤ JS.decimalValue 0 ds ≤ 500 ∧ stack req = JS.ofZ (JS.decimalValue 0 ds).
Proof.
  intros Hs Hne Hds Hreq.
  destruct (request_sent st reply req Hreq) as (_ & Hlt & Hgt & Hstack & _).
  rewrite Hs in Hlt, Hgt, Hstack.
  cbn [stackToNumber parseStack] in Hlt, Hgt, Hstack. unfold JS.gt in Hgt.
  rewrite (StringToNumber_digits ds Hne Hds) in Hlt, Hgt.
  rewrite lt_ofZ in Hlt, Hgt.
  apply bool_decide_eq_false in Hlt. apply bool_decide_eq_false in Hgt.
  split; [lia |]. rewrite Hstack. by apply parseInt10_digits.
Qed.

(** C10, at the input text "0.5e2" (fifty, as the number field accepts
    it).  The check compares the numeric value of the text, 50, which is
    neither below 1 nor above 500, so the request is made; the stack it
    carries is [parseInt("0.5e2", 10)], which stops reading at the
    point: 0, outside 1..500. *)
Theorem stack_text_sent_out_of_range (reply : Reply) :
  stackToNumber (StackText "0.5e2") = JS.Fin 50 ∧
  requests
    (handleAnalyze
       (mkState "6-max" ["Ah"; "Kd"]%string "BTN" "BB" (StackText "0.5e2")
                "rfi" false None false None) reply) =
    [ {| hero_position := "BTN"; villain_position := "BB";
         stack := JS.ofZ 0; hand := ["Ah"; "Kd"]%string |} ] ∧
  JS.lt (JS.ofZ 0) (JS.ofZ 1) = true.
Proof.
  split; [reflexivity |]. split; [| reflexivity].
  destruct reply; reflexivity.
Qed.

(** The same text without the leading zero passes the check as well and
    is sent as [NaN]. *)
Lemma stack_text_sent_as_NaN (reply : Reply) :
  stack <$> requests
    (handleAnalyze
       (mkState "6-max" ["Ah"; "Kd"]%string "BTN" "BB" (StackText ".5e2")
                "rfi" false None false None) reply) = [JS.NaN].
Proof. destruct reply; reflexivity. Qed.

End Analyze.

(** ** The equity engine *)

Section EquityFacts.
Import Equity.

Variable Card : Type.
Variable evaluate : list Card → Z.

Lemma count_total (o : Outcome) (r : EquityResult) :
  (wins (count o r) + ties (count o r) + losses (count o r)
   = S (wins r + ties r + losses r))%nat ∧
  trials (count o r) = S (trials r) ∧ exact (count o r) = exact r.
Proof. destruct o; simpl; repeat split; lia. Qed.

(** Each completion adds one trial and one win, tie or loss. *)
Lemma aggregate_from (hands : list (list Card)) (hole : list Card)
    (completions : list (list Card)) :
  ∀ r0 : EquityResult,
    let r := fold_left
               (fun r board => count (showdown Card evaluate hands hole board) r)
               completions r0 in
    (wins r + ties r + losses r
     = wins r0 + ties r0 + losses r0 + length completions)%nat ∧
    (trials r = trials r0 + length completions)%nat ∧
    exact r = exact r0.
Proof.
  induction completions as [| board rest IH]; intros r0; simpl.
  - repeat split; lia.
  - specialize (IH (count (showdown Card evaluate hands hole board) r0)).
    simpl in IH. destruct IH as (IHc & IHt & IHe).
    destruct (count_total (showdown Card evaluate hands hole board) r0)
      as (Hc & Ht & He).
    rewrite IHc, IHt, IHe, Hc, Ht, He. repeat split; lia.
Qed.

Lemma aggregate_counts (isExact : bool) (hands : list (list Card))
    (completions : list (list Card)) (hole : list Card) :
  let r := aggregate Card evaluate isExact hands completions hole in
  (wins r + ties r + losses r = trials r)%nat ∧
  trials r = length completions ∧ exact r = isExact.
Proof.
  unfold aggregate.
  destruct (aggregate_from hands hole completions (mkEquity 0 0 0 0 isExact))
    as (Hc & Ht & He).
  simpl in *. repeat split; lia || done.
Qed.

Lemma ratios_sum (w t l n : nat) :
  (w + t + l = n)%nat → (0 < n)%nat →
  (ratio w n + ratio t n + ratio l n == 1)%Q.
Proof.
  intros Hsum Hpos. unfold ratio.
  assert (Hn : ¬ (inject_Z (Z.of_nat n) == 0)%Q).
  { intros H. apply (inject_Z_injective (Z.of_nat n) 0) in H. lia. }
  assert (Hadd : (inject_Z (Z.of_nat w) + inject_Z (Z.of_nat t)
                  + inject_Z (Z.of_nat l) == inject_Z (Z.of_nat n))%Q).
  { rewrite <- !inject_Z_plus. apply inject_Z_injective. lia. }
  assert (Hdiv :
    (inject_Z (Z.of_nat w) / inject_Z (Z.of_nat n)
     + inject_Z (Z.of_nat t) / inject_Z (Z.of_nat n)
     + inject_Z (Z.of_nat l) / inject_Z (Z.of_nat n)
     == (inject_Z (Z.of_nat w) + inject_Z (Z.of_nat t)
         + inject_Z (Z.of_nat l)) / inject_Z (Z.of_nat n))%Q)
    by (field; exact Hn).
  rewrite Hdiv.
  rewrite Hadd. field. exact Hn.
Qed.

(** The counters of every hand of a request. *)
Lemma equity_counts
    (isExact : bool) (hands completions : list (list Card))
    (r : EquityResult) :
  r ∈ equity Card evaluate isExact hands completions →
  (wins r + ties r + losses r = trials r)%nat ∧
  trials r = length completions ∧ exact r = isExact.
Proof.
  intros Hr. unfold equity in Hr.
  apply list_elem_of_fmap in Hr as (hole & -> & _).
  apply aggregate_counts.
Qed.

Lemma ratio_nonneg (k n : nat) : (0 < n)%nat → (0 <= ratio k n)%Q.
Proof.
  intros Hn. unfold ratio, Qdiv.
  apply Qmult_le_0_compat.
  - change 0%Q with (inject_Z 0). rewrite <- Zle_Qle. lia.
  - apply Qinv_le_0_compat.
    change 0%Q with (inject_Z 0). rewrite <- Zle_Qle. lia.
Qed.

(** Rounded to binary64 at every step, the sum of the three probabilities
    of a hand stays within 1e-9 of 1, the tolerance the specification
    allows for exact enumeration. *)
Lemma rounded_sum_within_tolerance
    (fl : Q → Q) (isExact : bool) (hands completions : list (list Card))
    (r : EquityResult) :
  rounding fl →
  completions ≠ [] →
  r ∈ equity Card evaluate isExact hands completions →
  (1 - (1 # 1000000000) <= rounded_sum fl r
   ∧ rounded_sum fl r <= 1 + (1 # 1000000000))%Q.
Proof.
  intros Hfl Hne Hr.
  destruct (equity_counts isExact hands completions r Hr) as (Hc & Ht' & _).
  assert (Hpos : (0 < trials r)%nat).
  { rewrite Ht'. destruct completions; [contradiction | simpl; lia]. }
  assert (Hsum : (win_probability r + tie_probability r
                  + lose_probability r == 1)%Q)
    by (apply ratios_sum; [exact Hc | exact Hpos]).
  pose proof (ratio_nonneg (wins r) _ Hpos) as Hw.
  pose proof (ratio_nonneg (ties r) _ Hpos) as Ht.
  pose proof (ratio_nonneg (losses r) _ Hpos) as Hl.
  unfold rounded_sum.
  fold (win_probability r) in Hw. fold (tie_probability r) in Ht.
  fold (lose_probability r) in Hl.
  set (pw := win_probability r) in *. set (pt := tie_probability r) in *.
  set (pl := lose_probability r) in *.
  destruct (Hfl pw Hw) as [Ha1 Ha2]. destruct (Hfl pt Ht) as [Hb1 Hb2].
  destruct (Hfl pl Hl) as [Hc1 Hc2].
  unfold unit_roundoff in *. vm_compute (2 ^ 53)%positive in *.
  assert (Hab : (0 <= fl pw + fl pt)%Q) by lra.
  destruct (Hfl _ Hab) as [Hs1 Hs2].
  unfold unit_roundoff in Hs1, Hs2. vm_compute (2 ^ 53)%positive in Hs1, Hs2.
  assert (Habc : (0 <= fl (fl pw + fl pt) + fl pl)%Q) by lra.
  destruct (Hfl _ Habc) as [Ht1 Ht2].
  unfold unit_roundoff in Ht1, Ht2. vm_compute (2 ^ 53)%positive in Ht1, Ht2.
  split; lra.
Qed.

(** Exact arithmetic is one such rounding. *)
Lemma rounding_exact : rounding (fun x => x).
Proof.
  intros x Hx. unfold unit_roundoff. vm_compute (2 ^ 53)%positive.
  split; nra.
Qed.

(** C3. For a request with at least one board completion to evaluate,
    every hand's win, tie and lose probabilities add up to exactly 1 as
    rationals, and to 1 within 1e-9 once every quotient and sum is rounded
    to binary64; the reported trials are the completions evaluated. *)
Theorem probabilities_sum_to_one
    (isExact : bool) (hands completions : list (list Card))
    (r : EquityResult) :
  completions ≠ [] →
  r ∈ equity Card evaluate isExact hands completions →
  (win_probability r + tie_probability r + lose_probability r == 1)%Q ∧
  (∀ fl : Q → Q, rounding fl →
     (1 - (1 # 1000000000) <= rounded_sum fl r
      ∧ rounded_sum fl r <= 1 + (1 # 1000000000))%Q) ∧
  trials r = length completions ∧ exact r = isExact.
Proof.
  intros Hne Hr.
  destruct (equity_counts isExact hands completions r Hr) as (Hc & Ht & He).
  split; [| split; [| by split]].
  - unfold win_probability, tie_probability, lose_probability.
    apply ratios_sum; [exact Hc |]. rewrite Ht.
    destruct completions; [contradiction | simpl; lia].
  - intros fl Hfl.
    exact (rounded_sum_within_tolerance fl isExact hands completions r
             Hfl Hne Hr).
Qed.

End EquityFacts.

Lemma probabilities_sum_to_one_witness :
  [[3%nat; 3%nat; 3%nat; 3%nat; 3%nat]] ≠ [] ∧
  Equity.mkEquity 1 0 0 1 true
    ∈ Equity.equity nat (fun cards => Z.of_nat (list_sum cards)) true
        [[14%nat; 14%nat]; [13%nat; 13%nat]]
        [[3%nat; 3%nat; 3%nat; 3%nat; 3%nat]] ∧
  (Equity.win_probability (Equity.mkEquity 1 0 0 1 true)
   + Equity.tie_probability (Equity.mkEquity 1 0 0 1 true)
   + Equity.lose_probability (Equity.mkEquity 1 0 0 1 true) == 1)%Q ∧
  (∀ fl : Q → Q, Equity.rounding fl →
     (1 - (1 # 1000000000)
        <= Equity.rounded_sum fl (Equity.mkEquity 1 0 0 1 true)
      ∧ Equity.rounded_sum fl (Equity.mkEquity 1 0 0 1 true)
        <= 1 + (1 # 1000000000))%Q) ∧
  Equity.trials (Equity.mkEquity 1 0 0 1 true)
    = length [[3%nat; 3%nat; 3%nat; 3%nat; 3%nat]] ∧
  Equity.exact (Equity.mkEquity 1 0 0 1 true) = true.
Proof.
  assert (Hne : [[3%nat; 3%nat; 3%nat; 3%nat; 3%nat]] ≠ []) by discriminate.
  assert (Hin : Equity.mkEquity 1 0 0 1 true
    ∈ Equity.equity nat (fun cards => Z.of_nat (list_sum cards)) true
        [[14%nat; 14%nat]; [13%nat; 13%nat]]
        [[3%nat; 3%nat; 3%nat; 3%nat; 3%nat]]) by (vm_compute; left).
  split; [exact Hne |]. split; [exact Hin |].
  exact (probabilities_sum_to_one nat (fun cards => Z.of_nat (list_sum cards))
           true [[14%nat; 14%nat]; [13%nat; 13%nat]]
           [[3%nat; 3%nat; 3%nat; 3%nat; 3%nat]]
           (Equity.mkEquity 1 0 0 1 true) Hne Hin).
Defined.

(* ================================================================== *)
(** * Further properties                                                *)
(* ================================================================== *)

(** ** The card selector: what a click does *)

Section SelectorClicks.
Import CardSelector.

Lemma filter_not_in (card : string) (sel : list string) :
  card ∉ sel → filter (fun c => c ≠ card) sel = sel.
Proof.
  induction sel as [| x xs IH]; intros Hnot; [reflexivity |].
  apply not_elem_of_cons in Hnot as [Hne Hxs].
  rewrite filter_cons. destruct (decide (x ≠ card)) as [_ | Heq].
  - by rewrite (IH Hxs).
  - exfalso. apply Heq. congruence.
Qed.

Lemma filter_twice (card : string) (sel : list string) :
  filter (fun c => c ≠ card) (filter (fun c => c ≠ card) sel)
  = filter (fun c => c ≠ card) sel.
Proof.
  apply filter_not_in. intros Hin.
  apply list_elem_of_filter in Hin as [Hne _]. by apply Hne.
Qed.

Lemma filter_single (card : string) :
  filter (fun c => c ≠ card) [card] = [].
Proof.
  rewrite filter_cons. destruct (decide (card ≠ card)); [done | reflexivity].
Qed.

(** X1. A click leaves the selection as it is exactly when the card is
    disabled, or is not selected while the selection is full.  Every
    other click changes it. *)
Theorem click_without_effect (p : Props) (sel : list string) (card : string) :
  handleCardClick p sel card = sel ↔
  card ∈ disabledCards p ∨ ((card ∉ sel) ∧ (maxCards p ≤ length sel)%nat).
Proof.
  unfold handleCardClick.
  destruct (JS.includes card (disabledCards p)) eqn:Hd.
  { apply includes_spec in Hd. split; [by left | done]. }
  apply includes_false in Hd.
  destruct (JS.includes card sel) eqn:Hs.
  - apply includes_spec in Hs. split.
    + intros Heq. exfalso.
      pose proof (length_filter_lt (fun c => c ≠ card) sel card Hs) as Hlt.
      rewrite Heq in Hlt. apply (Nat.lt_irrefl (length sel)), Hlt. by intros H.
    + intros [H | [H _]]; contradiction.
  - apply includes_false in Hs.
    destruct (length sel <? maxCards p)%nat eqn:Hlt.
    + apply Nat.ltb_lt in Hlt. split.
      * intros Heq. apply (f_equal length) in Heq.
        rewrite length_app in Heq. simpl in Heq. lia.
      * intros [H | [_ H]]; [contradiction | lia].
    + apply Nat.ltb_ge in Hlt. split; [by right | done].
Qed.

(** X2. A click on a card concerns that card only: with the clicked card
    left out, the selection is the same list before and after, so no
    other card is added, dropped or moved. *)
Theorem click_touches_one_card (p : Props) (sel : list string) (card : string) :
  filter (fun c => c ≠ card) (handleCardClick p sel card)
  = filter (fun c => c ≠ card) sel.
Proof.
  unfold handleCardClick.
  destruct (JS.includes card (disabledCards p)); [reflexivity |].
  destruct (JS.includes card sel); [apply filter_twice |].
  destruct (length sel <? maxCards p)%nat; [| reflexivity].
  by rewrite filter_app, filter_single, app_nil_r.
Qed.

Lemma click_selects (p : Props) (sel : list string) (card : string) :
  card ∉ disabledCards p → card ∉ sel → (length sel < maxCards p)%nat →
  handleCardClick p sel card = sel ++ [card].
Proof.
  intros Hd Hs Hlt. unfold handleCardClick.
  apply includes_false in Hd. apply includes_false in Hs.
  apply Nat.ltb_lt in Hlt. by rewrite Hd, Hs, Hlt.
Qed.

Lemma click_deselects (p : Props) (sel : list string) (card : string) :
  card ∉ disabledCards p → card ∈ sel →
  handleCardClick p sel card = filter (fun c => c ≠ card) sel.
Proof.
  intros Hd Hs. unfold handleCardClick.
  apply includes_false in Hd. apply includes_spec in Hs.
  by rewrite Hd, Hs.
Qed.

(** X3. Selecting a card and clicking it again gives back the selection
    there was: for an enabled card that is not selected and still fits,
    two clicks undo each other. *)
Theorem click_twice_restores (p : Props) (sel : list string) (card : string) :
  card ∉ disabledCards p → card ∉ sel → (length sel < maxCards p)%nat →
  handleCardClick p (handleCardClick p sel card) card = sel.
Proof.
  intros Hd Hs Hlt. rewrite (click_selects p sel card Hd Hs Hlt).
  rewrite (click_deselects p (sel ++ [card]) card Hd)
    by (apply elem_of_app; right; left).
  by rewrite filter_app, filter_single, app_nil_r, filter_not_in.
Qed.

Lemma click_twice_restores_witness :
  ("Qs"%string ∉ disabledCards defaultProps) ∧
  ("Qs"%string ∉ ["Ah"%string]) ∧
  (length ["Ah"%string] < maxCards defaultProps)%nat ∧
  handleCardClick defaultProps
    (handleCardClick defaultProps ["Ah"%string] "Qs") "Qs" = ["Ah"%string].
Proof.
  assert (Hd : "Qs"%string ∉ disabledCards defaultProps)
    by (simpl; apply not_elem_of_nil).
  assert (Hs : "Qs"%string ∉ ["Ah"%string])
    by (apply (bool_decide_unpack _); vm_compute; exact I).
  assert (Hlt : (length ["Ah"%string] < maxCards defaultProps)%nat)
    by (simpl; lia).
  split; [exact Hd |]. split; [exact Hs |]. split; [exact Hlt |].
  exact (click_twice_restores defaultProps ["Ah"%string] "Qs" Hd Hs Hlt).
Defined.

(** The selection a run ends with. *)
Lemma run_last_is_Some (p : Props) (es : list Event) (sel : list string) :
  is_Some (last (run p sel es).1).
Proof.
  destruct es as [| e es]; [by eexists |].
  rewrite run_unfold. cbn [fst]. rewrite last_cons.
  destruct (last (run p (step p sel e).1 es).1); by eexists.
Qed.

Lemma run_last_cons (p : Props) (e : Event) (es : list Event)
    (sel : list string) :
  last (run p sel (e :: es)).1 = last (run p (step p sel e).1 es).1.
Proof.
  rewrite run_unfold. cbn [fst]. rewrite last_cons.
  destruct (run_last_is_Some p es (step p sel e).1) as [x ->]. reflexivity.
Qed.

Lemma run_last_clicks (p : Props) (cs : list string) :
  ∀ sel,
    NoDup (sel ++ cs) → (∀ c, c ∈ cs → c ∉ disabledCards p) →
    (length (sel ++ cs) ≤ maxCards p)%nat →
    last (run p sel (ClickCard <$> cs)).1 = Some (sel ++ cs) ∧
    (run p sel (ClickCard <$> cs)).2 = [].
Proof.
  induction cs as [| c cs IH]; intros sel Hnd Hdis Hlen.
  - simpl. by rewrite app_nil_r.
  - rewrite fmap_cons, run_last_cons, run_unfold. cbn [fst snd step app].
    assert (Hc : c ∉ sel).
    { apply NoDup_app in Hnd as (_ & Hdisj & _).
      intros Hin. apply (Hdisj c Hin). left. }
    assert (Hstep : handleCardClick p sel c = sel ++ [c]).
    { apply click_selects; [apply Hdis; left | exact Hc |].
      rewrite length_app in Hlen. simpl in Hlen. lia. }
    rewrite Hstep.
    replace (sel ++ c :: cs) with ((sel ++ [c]) ++ cs) in *
      by (by rewrite <- app_assoc).
    apply IH; [exact Hnd | | exact Hlen].
    intros x Hx. apply Hdis. by right.
Qed.

Lemma run_app (p : Props) (es1 es2 : list Event) :
  ∀ sel sel',
    last (run p sel es1).1 = Some sel' →
    selectedHands (run p sel (es1 ++ es2)).2
    = selectedHands (run p sel es1).2 ++ selectedHands (run p sel' es2).2.
Proof.
  induction es1 as [| e es1 IH]; intros sel sel' Hlast.
  - simpl in Hlast. injection Hlast as <-. reflexivity.
  - rewrite run_last_cons in Hlast.
    rewrite <- app_comm_cons, !run_unfold. cbn [snd].
    rewrite !selectedHands_app, <- app_assoc. f_equal.
    by apply IH.
Qed.

(** X4. Whatever is selected, Clear, then a click on each card of a hand
    of [maxCards] different enabled cards, then Confirm hands over exactly
    that hand, in the order of the clicks, and nothing else. *)
Theorem clear_pick_confirm (p : Props) (sel hand : list string) :
  NoDup hand → (∀ c, c ∈ hand → c ∉ disabledCards p) →
  length hand = maxCards p →
  selectedHands
    (run p sel (ClickClear :: (ClickCard <$> hand) ++ [ClickConfirm])).2
  = [hand].
Proof.
  intros Hnd Hdis Hlen. rewrite run_unfold.
  cbn [fst snd step app]. unfold handleClear.
  destruct (run_last_clicks p hand [] Hnd Hdis) as [Hlast Heffs];
    [simpl; lia |].
  rewrite app_nil_l in Hlast.
  rewrite (run_app p _ [ClickConfirm] [] hand Hlast), Heffs.
  cbn [run step fst snd selectedHands omap list_omap app].
  unfold confirmEnabled.
  rewrite (proj2 (Nat.eqb_eq _ _) Hlen). reflexivity.
Qed.

Lemma clear_pick_confirm_witness :
  NoDup ["Ah"; "Kd"]%string ∧
  (∀ c, c ∈ ["Ah"; "Kd"]%string → c ∉ disabledCards defaultProps) ∧
  length ["Ah"; "Kd"]%string = maxCards defaultProps ∧
  selectedHands
    (run defaultProps ["7c"; "2s"]%string
       (ClickClear :: (ClickCard <$> ["Ah"; "Kd"]%string) ++ [ClickConfirm])).2
  = [["Ah"; "Kd"]%string].
Proof.
  assert (Hnd : NoDup ["Ah"; "Kd"]%string)
    by (apply (bool_decide_unpack _); vm_compute; exact I).
  assert (Hdis : ∀ c, c ∈ ["Ah"; "Kd"]%string → c ∉ disabledCards defaultProps)
    by (intros c _; simpl; apply not_elem_of_nil).
  split; [exact Hnd |]. split; [exact Hdis |]. split; [reflexivity |].
  exact (clear_pick_confirm defaultProps ["7c"; "2s"]%string
           ["Ah"; "Kd"]%string Hnd Hdis eq_refl).
Defined.

(** X5. Only Confirm hands cards over: a sequence of clicks without a
    click on Confirm (cards, Clear, Cancel, the X) never calls
    [onSelect]. *)
Theorem no_hand_without_confirm (p : Props) (es : list Event) :
  ClickConfirm ∉ es →
  ∀ sel, selectedHands (run p sel es).2 = [].
Proof.
  induction es as [| e es IH]; intros Hnot sel; [reflexivity |].
  apply not_elem_of_cons in Hnot as [Hne Hes].
  rewrite run_unfold. simpl. rewrite selectedHands_app, (IH Hes).
  destruct e; try reflexivity. by destruct Hne.
Qed.

Lemma no_hand_without_confirm_witness :
  (ClickConfirm ∉ [ClickCard "Ah"; ClickCard "Kd"; ClickCancel]) ∧
  ∀ sel, selectedHands
           (run defaultProps sel
              [ClickCard "Ah"; ClickCard "Kd"; ClickCancel]).2 = [].
Proof.
  assert (Hnot : ClickConfirm ∉ [ClickCard "Ah"; ClickCard "Kd"; ClickCancel]).
  { intros H. repeat (apply elem_of_cons in H; destruct H as [H | H];
                      [discriminate H |]).
    by apply elem_of_nil in H. }
  split; [exact Hnot |].
  exact (no_hand_without_confirm defaultProps
           [ClickCard "Ah"; ClickCard "Kd"; ClickCancel] Hnot).
Defined.

End SelectorClicks.

(** ** The card grid and the card faces *)

Section GridAndFaces.
Import CardView CardGrid.

(** X6. The four rows of the grid, in the order spades, hearts, diamonds,
    clubs, are the deck cut in four: put end to end they are [ALL_CARDS],
    each row has 13 cards, and no token is in two rows. *)
Theorem grid_rows_cut_the_deck :
  concat rows = ALL_CARDS ∧
  Forall (fun row => length row = 13%nat) rows ∧
  (∀ (s1 s2 c : string), c ∈ suitRow s1 → c ∈ suitRow s2 → s1 = s2).
Proof.
  split; [by vm_compute |]. split; [by_evaluation |].
  intros s1 s2 c H1 H2. unfold suitRow in *.
  apply list_elem_of_filter in H1 as [H1 _].
  apply list_elem_of_filter in H2 as [H2 _]. congruence.
Qed.

Lemma rankText_Some (r : ascii) :
  rankText (Some r) =
    if decide (r = "T"%char) then "10"%string else String r EmptyString.
Proof.
  destruct (decide (r = "T"%char)) as [-> | Hr]; [reflexivity |].
  unfold rankText. each_char r; try reflexivity. by destruct Hr.
Qed.

Lemma rankText_inj (r1 r2 : ascii) :
  rankText (Some r1) = rankText (Some r2) → r1 = r2.
Proof.
  rewrite !rankText_Some.
  destruct (decide (r1 = "T"%char)) as [-> | H1];
    destruct (decide (r2 = "T"%char)) as [-> | H2];
    intros H; try discriminate H; [reflexivity | congruence].
Qed.

(** X7. Two tokens made of a rank character and one of the suits s, h, d,
    c are drawn alike only when they are the same token: the face shows
    which card it is. *)
Theorem faces_tell_cards_apart (r1 s1 r2 s2 : ascii) :
  s1 ∈ ["s"; "h"; "d"; "c"]%char → s2 ∈ ["s"; "h"; "d"; "c"]%char →
  Card (Some (String r1 (String s1 EmptyString)))
  = Card (Some (String r2 (String s2 EmptyString))) →
  r1 = r2 ∧ s1 = s2.
Proof.
  intros Hs1 Hs2 H. cbn in H. injection H as Hrank _ Hicon.
  split; [by apply rankText_inj |].
  repeat (apply elem_of_cons in Hs1; destruct Hs1 as [-> | Hs1]);
    try (by apply elem_of_nil in Hs1);
    repeat (apply elem_of_cons in Hs2; destruct Hs2 as [-> | Hs2]);
    try (by apply elem_of_nil in Hs2);
    first [reflexivity | discriminate Hicon].
Qed.

Lemma faces_tell_cards_apart_witness :
  "h"%char ∈ ["s"; "h"; "d"; "c"]%char ∧
  "h"%char ∈ ["s"; "h"; "d"; "c"]%char ∧
  ("T"%char = "T"%char ∧ "h"%char = "h"%char).
Proof.
  assert (Hs : "h"%char ∈ ["s"; "h"; "d"; "c"]%char) by (right; left).
  split; [exact Hs |]. split; [exact Hs |].
  exact (faces_tell_cards_apart "T" "h" "T" "h" Hs Hs eq_refl).
Defined.

(** X8. A token whose second character is missing or is none of h, d, c
    is drawn as the spade of its rank, in black: the suit falls back to
    spades without any sign of it. *)
Theorem unknown_suit_drawn_as_spade (rank : ascii) (rest : string) :
  JS.charAt rest 0 ∉ [Some "h"; Some "d"; Some "c"]%char →
  Card (Some (String rank rest))
  = Card (Some (String rank (String "s" EmptyString))).
Proof.
  intros H.
  assert (Hsuit : redSuit (JS.charAt rest 0) = false
                  ∧ suitIcon (JS.charAt rest 0) = Spade).
  { destruct (JS.charAt rest 0) as [c |]; [| by split].
    each_char c;
      first [ by split
            | exfalso; apply H; by_evaluation ]. }
  destruct Hsuit as [Hred Hicon].
  change (Card (Some (String rank rest)))
    with (Drawn {| displayRank := rankText (Some rank);
                   isRed := redSuit (JS.charAt rest 0);
                   icon := suitIcon (JS.charAt rest 0) |}).
  by rewrite Hred, Hicon.
Qed.

Lemma unknown_suit_drawn_as_spade_witness :
  (JS.charAt "x" 0 ∉ [Some "h"; Some "d"; Some "c"]%char) ∧
  Card (Some "Ax"%string) = Card (Some "As"%string).
Proof.
  assert (H : JS.charAt "x" 0 ∉ [Some "h"; Some "d"; Some "c"]%char)
    by by_evaluation.
  split; [exact H |].
  exact (unknown_suit_drawn_as_spade "A" "x" H).
Defined.

End GridAndFaces.

(** ** The advisor panel and letter case *)

Section AdvisorCase.
Import Advisor.

Lemma upper_of_lower (c : ascii) :
  JS.upperChar (JS.lowerChar c) = JS.upperChar c.
Proof. each_char c; reflexivity. Qed.

Lemma toUpperCase_of_lower (a : string) :
  JS.toUpperCase (JS.toLowerCase a) = JS.toUpperCase a.
Proof.
  induction a as [| c a IH]; [reflexivity |]. simpl.
  by rewrite upper_of_lower, IH.
Qed.

(** X9. Colour and headline do not depend on the letter case of the
    action: two ASCII action names with the same lower-case form are
    shown alike, whatever the rest of the result. *)
Theorem presentation_ignores_case (a b : string) (v w : JS.Value) :
  Text.asciiOnly a = true → Text.asciiOnly b = true →
  JS.toLowerCase a = JS.toLowerCase b →
  colorClass (mkResult (Some a) v) = colorClass (mkResult (Some b) w) ∧
  label (mkResult (Some a) v) = label (mkResult (Some b) w).
Proof.
  intros _ _ Hlow.
  assert (Hup : JS.toUpperCase a = JS.toUpperCase b)
    by (rewrite <- (toUpperCase_of_lower a), Hlow;
        apply toUpperCase_of_lower).
  unfold colorClass, label, actionKey. cbn [action].
  by rewrite Hlow, Hup.
Qed.

Lemma presentation_ignores_case_witness :
  Text.asciiOnly "Limp" = true ∧ Text.asciiOnly "LIMP" = true ∧
  JS.toLowerCase "Limp" = JS.toLowerCase "LIMP" ∧
  colorClass (mkResult (Some "Limp"%string) (JS.JBool true))
  = colorClass (mkResult (Some "LIMP"%string) JS.JUndefined) ∧
  label (mkResult (Some "Limp"%string) (JS.JBool true))
  = label (mkResult (Some "LIMP"%string) JS.JUndefined).
Proof.
  split; [reflexivity |]. split; [reflexivity |]. split; [reflexivity |].
  exact (presentation_ignores_case "Limp" "LIMP" (JS.JBool true)
           JS.JUndefined eq_refl eq_refl eq_refl).
Defined.

End AdvisorCase.

(** ** The table: changing its size *)

Section TableSizes.
Import PokerTable TableView.

Lemma tableSizes_are_the_keys (size : string) :
  size ∈ tableSizes ↔ is_Some (TABLE_CONFIGS !! size).
Proof.
  split.
  - intros H. unfold tableSizes in H.
    repeat (apply elem_of_cons in H; destruct H as [-> | H];
            [by eexists |]).
    by apply elem_of_nil in H.
  - intros [cfg H].
    destruct (TABLE_CONFIGS_cases _ _ H) as [[-> _] | [[-> _] | [-> _]]];
      by_evaluation.
Qed.

(** Every table has two seats to fall back on, with different ids, and
    no two seats of a table share an id. *)
Lemma TABLE_CONFIGS_seats (size : string) (cfg : TableConfig) :
  TABLE_CONFIGS !! size = Some cfg →
  NoDup (id <$> positions cfg) ∧
  ∃ p0 p1 rest,
    positions cfg = p0 :: p1 :: rest ∧ id p1 ≠ EmptyString ∧ id p0 ≠ id p1.
Proof.
  intros H.
  destruct (TABLE_CONFIGS_cases _ _ H) as [[_ ->] | [[_ ->] | [_ ->]]];
    (split; [by_evaluation |]); simpl; eexists _, _, _;
    (split; [reflexivity | split; discriminate]).
Qed.

(** The state a size change leaves, written out. *)
Lemma handleTableSizeChange_result
    (size : string) (cfg : TableConfig) (st : State)
    (p0 p1 : Position) (rest : list Position) :
  TABLE_CONFIGS !! size = Some cfg →
  positions cfg = p0 :: p1 :: rest → id p1 ≠ EmptyString →
  handleTableSizeChange size st =
    Some {| tableSize := size; heroCards := heroCards st;
            heroPosition :=
              if hasPosition (positions cfg) (heroPosition st)
              then heroPosition st else id p0;
            villainPosition :=
              if hasPosition (positions cfg) (villainPosition st)
              then villainPosition st else id p1;
            stackSize := stackSize st; scenarioMode := scenarioMode st;
            showCardSelector := showCardSelector st; result := result st;
            loading := loading st; error := error st |}.
Proof.
  intros Hcfg Hps Hne. unfold handleTableSizeChange. rewrite Hcfg. simpl.
  assert (Hsecond : secondOrFirstId (positions cfg) = Some (id p1)).
  { apply (proj1 (secondOrFirstId_spec _)); [by rewrite Hps | done]. }
  assert (Hfirst : firstId (positions cfg) = Some (id p0)) by (by rewrite Hps).
  rewrite Hsecond, Hfirst.
  destruct (hasPosition (positions cfg) (heroPosition st));
    destruct (hasPosition (positions cfg) (villainPosition st)); reflexivity.
Qed.

(** X10. [handleTableSizeChange] throws exactly for a size that is no key
    of [TABLE_CONFIGS]; for each of the three sizes on the buttons it
    returns, whatever the seats were. *)
Theorem handleTableSizeChange_throws (size : string) (st : State) :
  (handleTableSizeChange size st = None ↔ TABLE_CONFIGS !! size = None) ∧
  (size ∈ tableSizes ↔ is_Some (handleTableSizeChange size st)).
Proof.
  assert (Hiff : handleTableSizeChange size st = None
                 ↔ TABLE_CONFIGS !! size = None).
  { split.
    - intros Hnone. destruct (TABLE_CONFIGS !! size) as [cfg |] eqn:Hcfg;
        [| reflexivity].
      destruct (TABLE_CONFIGS_seats _ _ Hcfg)
        as (_ & p0 & p1 & rest & Hps & Hne & _).
      rewrite (handleTableSizeChange_result _ _ st _ _ _ Hcfg Hps Hne)
        in Hnone. discriminate.
    - intros Hcfg. unfold handleTableSizeChange. by rewrite Hcfg. }
  split; [exact Hiff |].
  rewrite tableSizes_are_the_keys, <- !not_eq_None_Some. by rewrite Hiff.
Qed.

(** X11. A second click on the same size button changes nothing more:
    the state a size change leaves is a fixed point of that change. *)
Theorem handleTableSizeChange_idempotent (size : string) (st st' : State) :
  handleTableSizeChange size st = Some st' →
  handleTableSizeChange size st' = Some st'.
Proof.
  intros H.
  destruct (TABLE_CONFIGS !! size) as [cfg |] eqn:Hcfg;
    [| unfold handleTableSizeChange in H; by rewrite Hcfg in H].
  destruct (TABLE_CONFIGS_seats _ _ Hcfg)
    as (_ & p0 & p1 & rest & Hps & Hne & _).
  rewrite (handleTableSizeChange_result _ _ st _ _ _ Hcfg Hps Hne) in H.
  injection H as <-.
  rewrite (handleTableSizeChange_result _ _ _ _ _ _ Hcfg Hps Hne).
  cbn [heroPosition villainPosition heroCards stackSize scenarioMode
       showCardSelector result loading error].
  assert (H0 : hasPosition (positions cfg) (id p0) = true)
    by (apply hasPosition_spec; rewrite Hps; left).
  assert (H1 : hasPosition (positions cfg) (id p1) = true)
    by (apply hasPosition_spec; rewrite Hps; right; left).
  destruct (hasPosition (positions cfg) (heroPosition st)) eqn:Hh;
    destruct (hasPosition (positions cfg) (villainPosition st)) eqn:Hv;
    rewrite ?Hh, ?Hv, ?H0, ?H1; reflexivity.
Qed.

Lemma handleTableSizeChange_idempotent_witness :
  handleTableSizeChange "heads-up"
    (mkState "6-max" [] "UTG" "CO" (StackNumber 100) "vs" false None false None)
  = Some (mkState "heads-up" [] "BTN" "BB" (StackNumber 100) "vs"
                  false None false None) ∧
  handleTableSizeChange "heads-up"
    (mkState "heads-up" [] "BTN" "BB" (StackNumber 100) "vs"
             false None false None)
  = Some (mkState "heads-up" [] "BTN" "BB" (StackNumber 100) "vs"
                  false None false None).
Proof.
  split; [reflexivity |].
  exact (handleTableSizeChange_idempotent "heads-up"
           (mkState "6-max" [] "UTG" "CO" (StackNumber 100) "vs"
                    false None false None)
           (mkState "heads-up" [] "BTN" "BB" (StackNumber 100) "vs"
                    false None false None) eq_refl).
Defined.

(** X12. Moving to a table that has all the seats of the current one and
    back again restores the state: when both seats are seats of the
    current table, nothing is lost on the way. *)
Theorem handleTableSizeChange_there_and_back
    (a b : string) (ca cb : TableConfig) (st : State) :
  TABLE_CONFIGS !! a = Some ca → TABLE_CONFIGS !! b = Some cb →
  (∀ pos, pos ∈ id <$> positions ca → pos ∈ id <$> positions cb) →
  tableSize st = a →
  heroPosition st ∈ id <$> positions ca →
  villainPosition st ∈ id <$> positions ca →
  handleTableSizeChange b st ≫= handleTableSizeChange a = Some st.
Proof.
  intros Ha Hb Hsub Hsize Hh Hv.
  destruct (TABLE_CONFIGS_seats _ _ Ha) as (_ & a0 & a1 & ra & Hpa & Hna & _).
  destruct (TABLE_CONFIGS_seats _ _ Hb) as (_ & b0 & b1 & rb & Hpb & Hnb & _).
  rewrite (handleTableSizeChange_result _ _ st _ _ _ Hb Hpb Hnb).
  cbn [mbind option_bind].
  rewrite (handleTableSizeChange_result _ _ _ _ _ _ Ha Hpa Hna).
  cbn [heroPosition villainPosition heroCards stackSize scenarioMode
       showCardSelector result loading error].
  rewrite (proj2 (hasPosition_spec _ _) (Hsub _ Hh)).
  rewrite (proj2 (hasPosition_spec _ _) (Hsub _ Hv)).
  rewrite (proj2 (hasPosition_spec _ _) Hh).
  rewrite (proj2 (hasPosition_spec _ _) Hv).
  destruct st. simpl in Hsize. by subst.
Qed.

(** The smaller tables sit inside the larger ones. *)
Lemma table_seats_nested :
  (∀ pos, pos ∈ id <$> positions headsUp → pos ∈ id <$> positions sixMax) ∧
  (∀ pos, pos ∈ id <$> positions sixMax → pos ∈ id <$> positions nineMax).
Proof.
  split; intros pos H; simpl in H;
    repeat (apply elem_of_cons in H; destruct H as [-> | H];
            [by_evaluation |]);
    by apply elem_of_nil in H.
Qed.

Lemma handleTableSizeChange_there_and_back_witness :
  handleTableSizeChange "9-max" initialState
    ≫= handleTableSizeChange "6-max" = Some initialState.
Proof.
  apply (handleTableSizeChange_there_and_back
           "6-max" "9-max" sixMax nineMax initialState);
    [reflexivity | reflexivity | apply table_seats_nested | reflexivity
    | by_evaluation | by_evaluation].
Defined.

(** X13. A size change can put hero and villain on one seat.  From two
    different seats this happens in exactly two cases: the hero stays on
    the seat that is second in the new list while the villain, not on the
    new table, is moved there; or the villain stays on the first seat
    while the hero is moved there. *)
Theorem size_change_can_merge_seats
    (size : string) (cfg : TableConfig) (st st' : State) :
  TABLE_CONFIGS !! size = Some cfg →
  handleTableSizeChange size st = Some st' →
  heroPosition st ≠ villainPosition st →
  (heroPosition st' = villainPosition st' ↔
   (heroPosition st ∈ id <$> positions cfg
    ∧ (villainPosition st ∉ id <$> positions cfg)
    ∧ (id <$> positions cfg) !! 1%nat = Some (heroPosition st))
   ∨ ((heroPosition st ∉ id <$> positions cfg)
      ∧ villainPosition st ∈ id <$> positions cfg
      ∧ (id <$> positions cfg) !! 0%nat = Some (villainPosition st))).
Proof.
  intros Hcfg H Hne.
  destruct (TABLE_CONFIGS_seats _ _ Hcfg)
    as (_ & p0 & p1 & rest & Hps & Hn1 & H01).
  rewrite (handleTableSizeChange_result _ _ st _ _ _ Hcfg Hps Hn1) in H.
  injection H as <-. cbn [heroPosition villainPosition].
  pose proof (hasPosition_spec (positions cfg) (heroPosition st)) as Hh.
  pose proof (hasPosition_spec (positions cfg) (villainPosition st)) as Hv.
  assert (Hl0 : (id <$> positions cfg) !! 0%nat = Some (id p0))
    by (by rewrite Hps).
  assert (Hl1 : (id <$> positions cfg) !! 1%nat = Some (id p1))
    by (by rewrite Hps).
  rewrite Hl0, Hl1.
  destruct (hasPosition (positions cfg) (heroPosition st)) eqn:Eh;
    destruct (hasPosition (positions cfg) (villainPosition st)) eqn:Ev.
  - split; [done |].
    intros [(_ & Hnot & _) | (Hnot & _)]; exfalso; apply Hnot;
      [by apply Hv | by apply Hh].
  - split.
    + intros Heq. left. split; [by apply Hh |]. split; [| by rewrite Heq].
      intros Hin. apply Hv in Hin. discriminate.
    + intros [(_ & _ & [= Heq]) | (Hnot & _)]; [done |].
      exfalso. apply Hnot. by apply Hh.
  - split.
    + intros Heq. right. split; [| split; [by apply Hv | by rewrite Heq]].
      intros Hin. apply Hh in Hin. discriminate.
    + intros [(_ & Hnot & _) | (_ & _ & [= Heq])]; [| done].
      exfalso. apply Hnot. by apply Hv.
  - split; [done |].
    intros [(Hin & _) | (_ & Hin & _)];
      [apply Hh in Hin | apply Hv in Hin]; discriminate.
Qed.

Lemma size_change_can_merge_seats_witness :
  TABLE_CONFIGS !! "heads-up"%string = Some headsUp ∧
  handleTableSizeChange "heads-up"
    (mkState "6-max" [] "BB" "UTG" (StackNumber 100) "vs"
             false None false None)
  = Some (mkState "heads-up" [] "BB" "BB" (StackNumber 100) "vs"
                  false None false None) ∧
  "BB"%string ≠ "UTG"%string ∧
  (("BB"%string = "BB"%string) ↔
   ("BB"%string ∈ id <$> positions headsUp
    ∧ ("UTG"%string ∉ id <$> positions headsUp)
    ∧ (id <$> positions headsUp) !! 1%nat = Some "BB"%string)
   ∨ (("BB"%string ∉ id <$> positions headsUp)
      ∧ "UTG"%string ∈ id <$> positions headsUp
      ∧ (id <$> positions headsUp) !! 0%nat = Some "UTG"%string)).
Proof.
  split; [reflexivity |]. split; [reflexivity |]. split; [discriminate |].
  apply (size_change_can_merge_seats "heads-up" headsUp
           (mkState "6-max" [] "BB" "UTG" (StackNumber 100) "vs"
                    false None false None)
           (mkState "heads-up" [] "BB" "BB" (StackNumber 100) "vs"
                    false None false None));
    [reflexivity | reflexivity | discriminate].
Defined.

End TableSizes.
(** ** The table: seats and the villain drop-down *)

Section Seats.
Import PokerTable TableView.

Lemma count_with_id (l : list Position) (x : string) :
  NoDup (id <$> l) →
  length (filter (fun p => id p = x) l)
  = if bool_decide (x ∈ id <$> l) then 1%nat else 0%nat.
Proof.
  induction l as [| p l IH]; intros Hnd; [reflexivity |].
  rewrite fmap_cons in Hnd. apply NoDup_cons in Hnd as [Hp Hnd].
  rewrite filter_cons, fmap_cons. specialize (IH Hnd).
  destruct (decide (id p = x)) as [<- | Hne].
  - simpl. rewrite IH.
    rewrite (bool_decide_eq_false_2 _ Hp).
    by rewrite bool_decide_eq_true_2 by left.
  - rewrite IH. destruct (bool_decide (x ∈ id <$> l)) eqn:E.
    + apply bool_decide_eq_true in E.
      by rewrite bool_decide_eq_true_2 by (by right).
    + apply bool_decide_eq_false in E.
      rewrite bool_decide_eq_false_2; [reflexivity |].
      intros Hin. apply elem_of_cons in Hin as [Heq | Hin]; congruence.
Qed.

Lemma count_split (l : list Position) (x : string) :
  (length (filter (fun p => id p ≠ x) l)
   + length (filter (fun p => id p = x) l) = length l)%nat.
Proof.
  induction l as [| p l IH]; [reflexivity |].
  rewrite !filter_cons.
  destruct (decide (id p = x)); destruct (decide (id p ≠ x));
    simpl; try lia; contradiction.
Qed.

(** Whatever the table size holds, the seats drawn are those of one of
    the three tables. *)
Lemma currentPositions_seats (st : State) :
  NoDup (id <$> currentPositions st) ∧
  (2 ≤ length (currentPositions st))%nat.
Proof.
  unfold currentPositions.
  destruct (TABLE_CONFIGS !! tableSize st) as [cfg |] eqn:Hcfg.
  - destruct (TABLE_CONFIGS_seats _ _ Hcfg)
      as (Hnd & p0 & p1 & rest & Hps & _).
    split; [exact Hnd | rewrite Hps; simpl; lia].
  - split; [by_evaluation | simpl; lia].
Qed.

(** X14. The villain drop-down is never empty.  With the hero on the
    table it offers every seat but the hero's, one option fewer than
    there are seats; with a hero position that is no seat of the table it
    offers them all. *)
Theorem villainOptions_count (st : State) :
  villainOptions st ≠ [] ∧
  (heroPosition st ∈ id <$> currentPositions st →
   (length (villainOptions st) + 1 = length (currentPositions st))%nat) ∧
  (heroPosition st ∉ id <$> currentPositions st →
   villainOptions st = currentPositions st).
Proof.
  destruct (currentPositions_seats st) as [Hnd Hlen].
  pose proof (count_split (currentPositions st) (heroPosition st)) as Hsplit.
  pose proof (count_with_id (currentPositions st) (heroPosition st) Hnd)
    as Hcount.
  fold (villainOptions st) in Hsplit.
  split; [| split].
  - intros Hnil. rewrite Hnil in Hsplit. simpl in Hsplit.
    destruct (bool_decide _); lia.
  - intros Hin. rewrite (bool_decide_eq_true_2 _ Hin) in Hcount. lia.
  - intros Hnot. unfold villainOptions.
    clear -Hnot. induction (currentPositions st) as [| p l IH];
      [reflexivity |].
    rewrite fmap_cons in Hnot. apply not_elem_of_cons in Hnot as [Hne Hl].
    rewrite filter_cons.
    destruct (decide (id p ≠ heroPosition st)) as [_ | Heq];
      [by rewrite (IH Hl) |].
    exfalso. apply Heq. intros E. by apply Hne.
Qed.

Lemma villainOptions_count_witness :
  (length (villainOptions initialState) + 1
   = length (currentPositions initialState))%nat.
Proof.
  apply (proj1 (proj2 (villainOptions_count initialState))). by_evaluation.
Defined.

Lemma styled_as (st : State) (style : SeatStyle) (P : Position → Prop)
    `{∀ p, Decision (P p)} :
  (∀ p, seatStyle st p = style ↔ P p) →
  length (filter (fun seat => seat.2 = style) (seats st))
  = length (filter P (currentPositions st)).
Proof.
  intros Hiff. unfold seats.
  induction (currentPositions st) as [| p l IH]; [reflexivity |].
  rewrite fmap_cons, !filter_cons. cbn [snd].
  destruct (decide (seatStyle st p = style)) as [Hs | Hs];
    destruct (decide (P p)) as [Hp | Hp]; simpl; rewrite ?IH;
    try reflexivity; exfalso; [apply Hp | apply Hs]; by apply Hiff.
Qed.

(** X15. With the hero on the table, exactly one seat is drawn as the
    hero's.  A seat is drawn as the villain's only in 'vs' mode and only
    if it is not the hero's: there is exactly one when the villain sits
    on another seat of the table, and none in any other mode or when both
    share a seat. *)
Theorem seat_styles (st : State) :
  (heroPosition st ∈ id <$> currentPositions st →
   length (filter (fun seat => seat.2 = HeroSeat) (seats st)) = 1%nat) ∧
  (scenarioMode st ≠ "vs"%string ∨ villainPosition st = heroPosition st →
   filter (fun seat => seat.2 = VillainSeat) (seats st) = []) ∧
  (scenarioMode st = "vs"%string →
   villainPosition st ≠ heroPosition st →
   villainPosition st ∈ id <$> currentPositions st →
   length (filter (fun seat => seat.2 = VillainSeat) (seats st)) = 1%nat).
Proof.
  destruct (currentPositions_seats st) as [Hnd _].
  assert (Hhero : ∀ p, seatStyle st p = HeroSeat ↔ id p = heroPosition st).
  { intros p. unfold seatStyle, isHeroSeat. case_bool_decide.
    - done.
    - destruct (isVillainSeat st p); split; (discriminate || done). }
  assert (Hvil : ∀ p, seatStyle st p = VillainSeat ↔
                      id p = villainPosition st
                      ∧ scenarioMode st = "vs"%string
                      ∧ villainPosition st ≠ heroPosition st).
  { intros p. unfold seatStyle, isHeroSeat, isVillainSeat.
    case_bool_decide as Hh.
    - split; [discriminate |]. intros (Hv & _ & Hne). congruence.
    - destruct (String.eqb_spec (scenarioMode st) "vs") as [Hm | Hm]; simpl.
      + case_bool_decide as Hv; split; try discriminate; try done.
        * intros _. split; [done |]. split; [done | congruence].
        * intros (Hv' & _). contradiction.
      + split; [discriminate |]. intros (_ & Hmode & _). contradiction. }
  split; [| split].
  - intros Hin. rewrite (styled_as st HeroSeat _ Hhero).
    rewrite (count_with_id _ _ Hnd). by rewrite bool_decide_eq_true_2.
  - intros Hor. apply length_zero_iff_nil.
    rewrite (styled_as st VillainSeat _ Hvil).
    apply length_zero_iff_nil. clear Hnd.
    induction (currentPositions st) as [| p l IH]; [reflexivity |].
    rewrite filter_cons.
    destruct (decide _) as [(_ & Hm & Hne) | _]; [| exact IH].
    destruct Hor; contradiction.
  - intros Hmode Hne Hin. rewrite (styled_as st VillainSeat _ Hvil).
    transitivity (length (filter (fun p => id p = villainPosition st)
                                 (currentPositions st))).
    + f_equal. apply list_filter_iff. intros p.
      split; [by intros [? _] | done].
    + rewrite (count_with_id _ _ Hnd). by rewrite bool_decide_eq_true_2.
Qed.

Lemma seat_styles_witness :
  length (filter (fun seat => seat.2 = VillainSeat)
                 (seats (setScenarioMode "vs" initialState))) = 1%nat.
Proof.
  apply (proj2 (proj2 (seat_styles (setScenarioMode "vs" initialState))));
    [reflexivity | by_evaluation | by_evaluation].
Defined.

End Seats.

(** ** The table: what an analysis leaves behind *)

Section AnalyzeOutcome.
Import PokerTable TableView.

(** [handleAnalyze] is its part before the awaited call followed, when a
    call was made, by its part after it. *)
Lemma handleAnalyze_around_await (st : State) (reply : Reply) :
  handleAnalyze st reply =
    analyzeNow st ++
    match requests (analyzeNow st) with
    | [] => []
    | _ :: _ => analyzeLater reply
    end.
Proof.
  unfold handleAnalyze, analyzeNow, analyzeLater.
  destruct (negb (length (heroCards st) =? 2)%nat); [reflexivity |].
  destruct (JS.lt _ _ || JS.gt _ _); reflexivity.
Qed.

Lemma failureText_spec (detail : option string) :
  failureText detail ≠ EmptyString ∧
  (detail = Some (failureText detail)
   ∨ failureText detail = "Analysis failed"%string).
Proof.
  unfold failureText. destruct detail as [d |]; [| split; [done | by right]].
  destruct d as [| c d]; simpl; [split; [done | by right] |].
  split; [done | by left].
Qed.

(** X16. Once a request has been made, the handler always ends with
    loading switched off.  An answer replaces the result and leaves no
    error; a failure leaves the previous result on display and sets a
    non-empty message, the server's detail or "Analysis failed".  Cards,
    seats, stack, table size and mode are never touched. *)
Theorem analysis_outcome (st : State) (reply : Reply) (req : SpotRequest) :
  req ∈ requests (handleAnalyze st reply) →
  loading (afterAnalyze st reply) = false ∧
  match reply with
  | Resolved r =>
      result (afterAnalyze st reply) = Some r ∧
      error (afterAnalyze st reply) = None
  | Rejected detail =>
      result (afterAnalyze st reply) = result st ∧
      ∃ msg, error (afterAnalyze st reply) = Some msg ∧ msg ≠ EmptyString ∧
             (detail = Some msg ∨ msg = "Analysis failed"%string)
  end ∧
  heroCards (afterAnalyze st reply) = heroCards st ∧
  heroPosition (afterAnalyze st reply) = heroPosition st ∧
  villainPosition (afterAnalyze st reply) = villainPosition st ∧
  stackSize (afterAnalyze st reply) = stackSize st ∧
  tableSize (afterAnalyze st reply) = tableSize st ∧
  scenarioMode (afterAnalyze st reply) = scenarioMode st ∧
  showCardSelector (afterAnalyze st reply) = showCardSelector st.
Proof.
  intros Hreq.
  destruct (request_sent st reply req Hreq) as (Hlen & Hlt & Hgt & _).
  unfold afterAnalyze, handleAnalyze.
  rewrite (proj2 (Nat.eqb_eq _ _) Hlen), Hlt, Hgt.
  destruct reply as [r | detail]; cbn; [done |].
  split; [reflexivity |]. split; [| done]. split; [reflexivity |].
  exists (failureText detail). split; [reflexivity |].
  apply failureText_spec.
Qed.

Lemma analysis_outcome_witness :
  mkRequest "BTN" "BB" (JS.ofZ 100) ["Ah"; "Kd"]%string
    ∈ requests
        (handleAnalyze
           (mkState "6-max" ["Ah"; "Kd"]%string "BTN" "BB" (StackNumber 100)
                    "rfi" false None false None)
           (Rejected (Some EmptyString))) ∧
  loading
    (afterAnalyze
       (mkState "6-max" ["Ah"; "Kd"]%string "BTN" "BB" (StackNumber 100)
                "rfi" false None false None)
       (Rejected (Some EmptyString))) = false ∧
  error
    (afterAnalyze
       (mkState "6-max" ["Ah"; "Kd"]%string "BTN" "BB" (StackNumber 100)
                "rfi" false None false None)
       (Rejected (Some EmptyString))) = Some "Analysis failed"%string.
Proof.
  assert (Hreq : mkRequest "BTN" "BB" (JS.ofZ 100) ["Ah"; "Kd"]%string
    ∈ requests
        (handleAnalyze
           (mkState "6-max" ["Ah"; "Kd"]%string "BTN" "BB" (StackNumber 100)
                    "rfi" false None false None)
           (Rejected (Some EmptyString)))) by (vm_compute; left).
  split; [exact Hreq |].
  split; [| reflexivity].
  exact (proj1 (analysis_outcome _ _ _ Hreq)).
Defined.

(** X17. The Analyze button and the first check of [handleAnalyze] test
    the same thing, so a click on the enabled button never shows "Please
    select 2 cards": it shows the stack error and sends nothing, or it
    sends exactly one request. *)
Theorem enabled_click_outcome (st : State) (reply : Reply) :
  analyzeDisabled st = false →
  handleAnalyze st reply
  = [SetError (Some "Stack must be between 1 and 500 BB"%string)]
  ∨ ∃ req, requests (handleAnalyze st reply) = [req]
           ∧ hand req = heroCards st ∧ length (hand req) = 2%nat.
Proof.
  unfold analyzeDisabled. intros Hen.
  apply orb_false_iff in Hen as [Hlen _].
  rewrite (handleAnalyze_around_await st reply).
  unfold analyzeNow. rewrite Hlen.
  apply negb_false_iff, Nat.eqb_eq in Hlen.
  destruct (JS.lt _ _ || JS.gt _ _); [by left |].
  right. eexists. cbn [requests omap list_omap app].
  change (omap ?f (analyzeLater reply)) with (requests (analyzeLater reply)).
  unfold analyzeLater. rewrite requests_settle. done.
Qed.

Lemma enabled_click_outcome_witness :
  analyzeDisabled
    (mkState "6-max" ["Ah"; "Kd"]%string "BTN" "BB" (StackText "700")
             "rfi" false None false None) = false ∧
  (handleAnalyze
     (mkState "6-max" ["Ah"; "Kd"]%string "BTN" "BB" (StackText "700")
              "rfi" false None false None) (Rejected None)
   = [SetError (Some "Stack must be between 1 and 500 BB"%string)]
   ∨ ∃ req,
       requests
         (handleAnalyze
            (mkState "6-max" ["Ah"; "Kd"]%string "BTN" "BB" (StackText "700")
                     "rfi" false None false None) (Rejected None)) = [req]
       ∧ hand req = ["Ah"; "Kd"]%string ∧ length (hand req) = 2%nat).
Proof.
  split; [reflexivity |].
  exact (enabled_click_outcome
           (mkState "6-max" ["Ah"; "Kd"]%string "BTN" "BB" (StackText "700")
                    "rfi" false None false None) (Rejected None) eq_refl).
Defined.

End AnalyzeOutcome.

(** ** The table: a stack typed with a decimal point *)

Section DecimalStack.
Import PokerTable.













End DecimalStack.

(** ** The page as a whole *)

Section Page.
Import PokerTable TableView App.

Lemma click_members (p : CardSelector.Props) (sel : list string)
    (card c : string) :
  c ∈ CardSelector.handleCardClick p sel card → c ∈ sel ∨ c = card.
Proof.
  unfold CardSelector.handleCardClick.
  destruct (JS.includes card (CardSelector.disabledCards p)); [by left |].
  destruct (JS.includes card sel).
  - intros H. apply list_elem_of_filter in H as [_ H]. by left.
  - destruct (length sel <? CardSelector.maxCards p)%nat; [| by left].
    intros H. apply elem_of_app in H as [H | H]; [by left |].
    apply list_elem_of_singleton in H. by right.
Qed.

Lemma initial_invariant : invariant initial.
Proof.
  split; simpl.
  - by eexists.
  - by_evaluation.
  - by_evaluation.
  - by_evaluation.
  - by left.
  - split; [constructor |]. split; [lia |].
    intros c H. by apply elem_of_nil in H.
  - by left.
Qed.

Lemma currentPositions_of_size (st : PokerTable.State) (size : string)
    (cfg : TableConfig) :
  tableSize st = size → TABLE_CONFIGS !! size = Some cfg →
  currentPositions st = positions cfg.
Proof. intros <- H. unfold currentPositions. by rewrite H. Qed.

(** The table after an offered size click. *)
Lemma size_click_invariant (s : State) (size : string) :
  invariant s → size ∈ tableSizes →
  invariant (step s (ClickTableSize size)).1.
Proof.
  intros [Hsz Hh Hv Hm Hc Ht Hp] Hsize.
  apply tableSizes_are_the_keys in Hsize as [cfg Hcfg].
  destruct (TABLE_CONFIGS_seats _ _ Hcfg)
    as (_ & p0 & p1 & rest & Hps & Hne & _).
  cbn [step fst].
  rewrite (handleTableSizeChange_result _ _ (table s) _ _ _ Hcfg Hps Hne).
  unfold default. cbn [from_option]. unfold Datatypes.id.
  set (t' := {| tableSize := size |}).
  assert (Hcur : currentPositions t' = positions cfg)
    by (by apply (currentPositions_of_size t' size cfg)).
  split; cbn [table tempSelection pending]; rewrite ?Hcur;
    try assumption.
  - subst t'. cbn [tableSize]. by eexists.
  - subst t'. cbn [heroPosition].
    destruct (hasPosition (positions cfg) (heroPosition (table s))) eqn:E;
      [by apply hasPosition_spec | rewrite Hps; left].
  - subst t'. cbn [villainPosition].
    destruct (hasPosition (positions cfg) (villainPosition (table s))) eqn:E;
      [by apply hasPosition_spec | rewrite Hps; right; left].
Qed.

Lemma holeHand_of_selection (sel : list string) :
  NoDup sel → length sel = 2%nat →
  (∀ c, c ∈ sel → c ∈ CardView.ALL_CARDS) → holeHand sel.
Proof.
  intros Hnd Hlen Hdeck.
  destruct sel as [| a [| b [| ? ?]]]; try discriminate Hlen.
  exists a, b. split; [reflexivity |].
  apply NoDup_cons in Hnd as [Hab _].
  split; [| split; apply Hdeck; [left | right; left]].
  intros ->. apply Hab. left.
Qed.

Lemma modal_invariant (s : State) (e : CardSelector.Event) :
  invariant s → offered s (InModal e) = true →
  invariant (step s (InModal e)).1.
Proof.
  intros [Hsz Hh Hv Hm Hc (Hnd & Hlen & Hdeck) Hp] Hoff.
  cbn [offered] in Hoff. apply andb_true_iff in Hoff as [_ Hoff].
  destruct e as [card | | |]; cbn [step CardSelector.step fst].
  - apply bool_decide_eq_true in Hoff.
    assert (Hwf : CardSelector.wellFormed (modalProps (table s))
                    (tempSelection s)).
    { split; [exact Hnd |]. split; [| exact Hlen].
      intros c _. apply not_elem_of_nil. }
    destruct (handleCardClick_wellFormed _ _ card Hwf) as (Hnd' & _ & Hlen').
    split; cbn [table tempSelection pending fold_left]; try assumption.
    split; [exact Hnd' |]. split; [exact Hlen' |].
    intros c Hin. apply click_members in Hin as [Hin | ->]; auto.
  - split; cbn [table tempSelection pending fold_left]; try assumption.
    unfold CardSelector.handleClear.
    split; [constructor |]. split; [simpl; lia |].
    intros c H. by apply elem_of_nil in H.
  - rewrite Hoff. unfold CardSelector.confirmEnabled in Hoff.
    apply Nat.eqb_eq in Hoff.
    split; cbn [table tempSelection pending fold_left modalEffect
                CardSelector.handleConfirm setShowCardSelector setHeroCards
                tableSize heroPosition villainPosition scenarioMode
                heroCards loading]; try assumption; try done.
    right. by apply holeHand_of_selection.
  - split; cbn [table tempSelection pending fold_left modalEffect
                setShowCardSelector tableSize heroPosition villainPosition
                scenarioMode heroCards loading]; try assumption; done.
Qed.


Lemma apply_frame (effs : list Effect) (st : PokerTable.State) :
  tableSize (fold_left apply effs st) = tableSize st ∧
  heroCards (fold_left apply effs st) = heroCards st ∧
  heroPosition (fold_left apply effs st) = heroPosition st ∧
  villainPosition (fold_left apply effs st) = villainPosition st ∧
  stackSize (fold_left apply effs st) = stackSize st ∧
  scenarioMode (fold_left apply effs st) = scenarioMode st ∧
  showCardSelector (fold_left apply effs st) = showCardSelector st.
Proof.
  revert st. induction effs as [| e effs IH]; intros st; [repeat split |].
  cbn [fold_left].
  destruct (IH (apply st e)) as (H1 & H2 & H3 & H4 & H5 & H6 & H7).
  rewrite H1, H2, H3, H4, H5, H6, H7. destruct e; repeat split.
Qed.

Lemma apply_currentPositions (effs : list Effect) (st : PokerTable.State) :
  currentPositions (fold_left apply effs st) = currentPositions st.
Proof.
  unfold currentPositions. by rewrite (proj1 (apply_frame effs st)).
Qed.

(** What the click on the enabled Analyze button does. *)
Lemma analyzeNow_cases (st : PokerTable.State) :
  analyzeDisabled st = false →
  (analyzeNow st
   = [SetError (Some "Stack must be between 1 and 500 BB"%string)]
   ∧ JS.lt (stackToNumber (stackSize st)) (JS.ofZ 1)
     || JS.gt (stackToNumber (stackSize st)) (JS.ofZ 500) = true)
  ∨ (analyzeNow st
     = [SetLoading true; SetError None;
        AnalyzeSpot
          {| hero_position := heroPosition st;
             villain_position :=
               if String.eqb (scenarioMode st) "rfi" then "BB"%string
               else villainPosition st;
             stack := parseStack (stackSize st);
             hand := heroCards st |}]
     ∧ JS.lt (stackToNumber (stackSize st)) (JS.ofZ 1)
       || JS.gt (stackToNumber (stackSize st)) (JS.ofZ 500) = false).
Proof.
  unfold analyzeDisabled, analyzeNow. intros [Hlen _]%orb_false_iff.
  rewrite Hlen. destruct (JS.lt _ _ || JS.gt _ _); [by left | by right].
Qed.

Lemma analyzeLater_loading (reply : Reply) (st : PokerTable.State) :
  loading (fold_left apply (analyzeLater reply) st) = false.
Proof. by destruct reply. Qed.

Lemma analyze_invariant (s : State) :
  invariant s → offered s ClickAnalyze = true →
  invariant (step s ClickAnalyze).1.
Proof.
  intros [Hsz Hh Hv Hm Hc Ht Hp] Hoff.
  cbn [offered] in Hoff. apply negb_true_iff in Hoff.
  assert (Hload : loading (table s) = false)
    by (unfold analyzeDisabled in Hoff;
        apply orb_false_iff in Hoff as [_ Hoff]; exact Hoff).
  assert (Hpend : pending s = []).
  { destruct Hp as [[? _] | (req & _ & Hl)]; [done | congruence]. }
  cbn [step fst].
  destruct (apply_frame (analyzeNow (table s)) (table s))
    as (F1 & F2 & F3 & F4 & _ & F6 & _).
  split; cbn [table tempSelection pending];
    rewrite ?apply_currentPositions, ?F1, ?F2, ?F3, ?F4, ?F6;
    try assumption.
  rewrite Hpend.
  destruct (analyzeNow_cases (table s) Hoff) as [[-> _] | [-> _]].
  - left. split; [reflexivity | exact Hload].
  - right. eexists. split; reflexivity.
Qed.

Lemma reply_invariant (s : State) (reply : Reply) :
  invariant s → offered s (ReplyArrives reply) = true →
  invariant (step s (ReplyArrives reply)).1.
Proof.
  intros [Hsz Hh Hv Hm Hc Ht Hp] Hoff. cbn [offered] in Hoff.
  cbn [step fst].
  destruct (apply_frame (analyzeLater reply) (table s))
    as (F1 & F2 & F3 & F4 & _ & F6 & _).
  split; cbn [table tempSelection pending];
    rewrite ?apply_currentPositions, ?F1, ?F2, ?F3, ?F4, ?F6;
    try assumption.
  left. split; [| apply analyzeLater_loading].
  destruct Hp as [[Hnil _] | (req & -> & _)]; [| reflexivity].
  rewrite Hnil in Hoff. discriminate.
Qed.

(** Every offered event keeps the invariant. *)
Lemma step_invariant (s : State) (e : Event) :
  invariant s → offered s e = true → invariant (step s e).1.
Proof.
  intros Hinv Hoff. destruct e as [size | mode | pos | pos | text | size
                                    | pos | e | | reply].
  - apply size_click_invariant; [exact Hinv |].
    by apply bool_decide_eq_true in Hoff.
  - destruct Hinv. cbn [offered] in Hoff. apply bool_decide_eq_true in Hoff.
    by split.
  - destruct Hinv. cbn [offered] in Hoff. apply bool_decide_eq_true in Hoff.
    by split.
  - destruct Hinv. cbn [offered] in Hoff.
    apply andb_true_iff in Hoff as [_ Hoff].
    apply bool_decide_eq_true in Hoff.
    split; try assumption. cbn.
    apply list_elem_of_fmap in Hoff as (p & -> & Hp).
    unfold villainOptions in Hp. apply list_elem_of_filter in Hp as [_ Hp].
    apply list_elem_of_fmap. eauto.
  - destruct Hinv. by split.
  - destruct Hinv. by split.
  - destruct Hinv. cbn [step fst]. unfold seatClick.
    destruct (isHeroSeat (table s) pos); by split.
  - by apply modal_invariant.
  - by apply analyze_invariant.
  - by apply reply_invariant.
Qed.

Lemma BB_on_every_table (st : PokerTable.State) :
  "BB"%string ∈ id <$> currentPositions st.
Proof.
  unfold currentPositions.
  destruct (TABLE_CONFIGS !! tableSize st) as [cfg |] eqn:Hcfg;
    [| by_evaluation].
  destruct (TABLE_CONFIGS_cases _ _ Hcfg) as [[_ ->] | [[_ ->] | [_ ->]]];
    by_evaluation.
Qed.

(** The requests of one step: none, or the single request of an Analyze
    click, which carries the hero's two cards and seats of the table. *)
Lemma step_requests (s : State) (e : Event) (req : SpotRequest) :
  invariant s → offered s e = true → req ∈ (step s e).2 →
  e = ClickAnalyze ∧ (step s e).2 = [req] ∧ pending s = [] ∧
  holeHand (hand req) ∧ hand req = heroCards (table s) ∧
  hero_position req = heroPosition (table s) ∧
  hero_position req ∈ id <$> currentPositions (table s) ∧
  villain_position req ∈ id <$> currentPositions (table s) ∧
  stack req = parseStack (stackSize (table s)).
Proof.
  intros [Hsz Hh Hv Hm Hc Ht Hp] Hoff Hreq.
  destruct e; cbn [step snd] in Hreq;
    try (by apply elem_of_nil in Hreq);
    try (destruct (CardSelector.step _ _ _); by apply elem_of_nil in Hreq).
  cbn [offered] in Hoff. apply negb_true_iff in Hoff.
  assert (Hlen : length (heroCards (table s)) = 2%nat).
  { unfold analyzeDisabled in Hoff. apply orb_false_iff in Hoff as [H _].
    by apply negb_false_iff, Nat.eqb_eq in H. }
  assert (Hload : loading (table s) = false)
    by (unfold analyzeDisabled in Hoff;
        apply orb_false_iff in Hoff as [_ Hoff]; exact Hoff).
  assert (Hpend : pending s = []).
  { destruct Hp as [[? _] | (r & _ & Hl)]; [done | congruence]. }
  cbn [step snd].
  destruct (analyzeNow_cases (table s) Hoff) as [[E _] | [E _]];
    rewrite E in Hreq |- *; cbn in Hreq; [by apply elem_of_nil in Hreq |].
  apply list_elem_of_singleton in Hreq as ->. cbn.
  split; [reflexivity |]. split; [reflexivity |]. split; [exact Hpend |].
  split; [| split; [reflexivity |]].
  { destruct Hc as [Hnil | Hhand]; [| exact Hhand].
    rewrite Hnil in Hlen. discriminate. }
  split; [reflexivity |]. split; [exact Hh |]. split; [| reflexivity].
  destruct (String.eqb _ _); [apply BB_on_every_table | exact Hv].
Qed.

Lemma run_cons (s : State) (e : Event) (es : list Event)
    (s' : State) (sent : list SpotRequest) :
  run s (e :: es) = Some (s', sent) →
  offered s e = true ∧
  ∃ sent', run (step s e).1 es = Some (s', sent')
           ∧ sent = (step s e).2 ++ sent'.
Proof.
  cbn [run]. destruct (offered s e); [| discriminate].
  destruct (step s e) as [s1 out]. cbn [fst snd].
  destruct (run s1 es) as [[s2 sent'] |]; [| discriminate].
  intros [= <- <-]. eauto.
Qed.

(** Requests sent and calls awaited, over one step. *)
Lemma step_count (s : State) (e : Event) :
  offered s e = true →
  (length (step s e).2 + length (pending s)
   = (if isReply e then 1 else 0) + length (pending (step s e).1))%nat.
Proof.
  intros Hoff. destruct e; cbn [step fst snd pending isReply length];
    try lia.
  - destruct (CardSelector.step _ _ _). cbn [fst snd pending length]. lia.
  - rewrite length_app. lia.
  - cbn [offered] in Hoff. destruct (pending s); [discriminate |].
    cbn [tail length]. lia.
Qed.

(** Along any run from a state that satisfies it, the invariant holds,
    every request carries a hole hand, and requests and answers add up. *)
Lemma run_invariant (es : list Event) :
  ∀ s s' sent,
    invariant s → run s es = Some (s', sent) →
    invariant s' ∧
    Forall (fun req => holeHand (hand req)) sent ∧
    (length sent + length (pending s) = replies es + length (pending s'))%nat.
Proof.
  induction es as [| e es IH]; intros s s' sent Hinv Hrun.
  - cbn in Hrun. injection Hrun as <- <-. split; [done |]. split; [constructor | done].
  - apply run_cons in Hrun as (Hoff & sent' & Hrun & ->).
    destruct (IH _ _ _ (step_invariant s e Hinv Hoff) Hrun)
      as (Hinv' & Hall & Hcount).
    split; [exact Hinv' |]. split.
    + apply Forall_app. split; [| exact Hall].
      apply Forall_forall. intros req Hreq.
      by destruct (step_requests s e req Hinv Hoff Hreq) as (_ & _ & _ & H & _).
    + pose proof (step_count s e Hoff) as Hstep.
      rewrite length_app. unfold replies in *. rewrite filter_cons.
      destruct (isReply e); destruct (decide _) as [? | ?];
        try discriminate; try done; cbn [length]; lia.
Qed.

End Page.
Section PageProperties.
Import PokerTable TableView App.

Lemma reachable_invariant (s : State) : reachable s → invariant s.
Proof.
  intros (es & sent & Hrun).
  by destruct (run_invariant es _ _ _ initial_invariant Hrun).
Qed.

(** X19. Whatever the user does, every request that leaves the page
    carries a hand of exactly two different cards of the 52-card deck. *)
Theorem requests_carry_hole_hands
    (es : list Event) (s : State) (sent : list SpotRequest) :
  run initial es = Some (s, sent) →
  Forall (fun req =>
            ∃ a b, hand req = [a; b] ∧ a ≠ b
                   ∧ a ∈ CardView.ALL_CARDS ∧ b ∈ CardView.ALL_CARDS)
         sent.
Proof.
  intros Hrun.
  by destruct (run_invariant es _ _ _ initial_invariant Hrun) as (_ & H & _).
Qed.

Lemma requests_carry_hole_hands_witness :
  match run initial
          [ClickSeat (mkPosition "BTN" "BTN" 270);
           InModal (CardSelector.ClickCard "Ah");
           InModal (CardSelector.ClickCard "Kd");
           InModal CardSelector.ClickConfirm;
           ClickAnalyze]
  with
  | Some (s, sent) =>
      length sent = 1%nat ∧
      Forall (fun req =>
                ∃ a b, hand req = [a; b] ∧ a ≠ b
                       ∧ a ∈ CardView.ALL_CARDS ∧ b ∈ CardView.ALL_CARDS)
             sent
  | None => False
  end.
Proof.
  destruct (run initial
              [ClickSeat (mkPosition "BTN" "BTN" 270);
               InModal (CardSelector.ClickCard "Ah");
               InModal (CardSelector.ClickCard "Kd");
               InModal CardSelector.ClickConfirm;
               ClickAnalyze]) as [[s sent] |] eqn:Hrun.
  - split; [| exact (requests_carry_hole_hands _ s sent Hrun)].
    vm_compute in Hrun. by injection Hrun as <- <-.
  - vm_compute in Hrun. discriminate Hrun.
Defined.

(** X20. Requests never overlap.  At most one call is awaited at any
    time, exactly while [loading] is set, during which the Analyze button
    is disabled; so the requests sent are the answers received plus the
    one still awaited, if any. *)
Theorem one_request_at_a_time
    (es : list Event) (s : State) (sent : list SpotRequest) :
  run initial es = Some (s, sent) →
  (length (pending s) ≤ 1)%nat ∧
  length sent = (replies es + length (pending s))%nat ∧
  (loading (table s) = true ↔ pending s ≠ []) ∧
  (pending s ≠ [] → offered s ClickAnalyze = false).
Proof.
  intros Hrun.
  destruct (run_invariant es _ _ _ initial_invariant Hrun)
    as ([_ _ _ _ _ _ Hp] & _ & Hcount).
  cbn [initial pending length] in Hcount. rewrite Nat.add_0_r in Hcount.
  split; [| split; [exact Hcount |]].
  - destruct Hp as [[-> _] | (req & -> & _)]; simpl; lia.
  - destruct Hp as [[Hnil Hl] | (req & Hreq & Hl)]; rewrite ?Hnil, ?Hreq.
    + split; [split; [congruence | done] | done].
    + split; [split; [done | done] |]. intros _.
      cbn [offered]. unfold analyzeDisabled. rewrite Hl.
      by rewrite orb_true_r.
Qed.

Lemma one_request_at_a_time_witness :
  match run initial
          [ClickSeat (mkPosition "BTN" "BTN" 270);
           InModal (CardSelector.ClickCard "Ah");
           InModal (CardSelector.ClickCard "Kd");
           InModal CardSelector.ClickConfirm;
           ClickAnalyze]
  with
  | Some (s, sent) =>
      pending s = sent ∧ (length (pending s) ≤ 1)%nat ∧
      offered s ClickAnalyze = false
  | None => False
  end.
Proof.
  destruct (run initial
              [ClickSeat (mkPosition "BTN" "BTN" 270);
               InModal (CardSelector.ClickCard "Ah");
               InModal (CardSelector.ClickCard "Kd");
               InModal CardSelector.ClickConfirm;
               ClickAnalyze]) as [[s sent] |] eqn:Hrun.
  - destruct (one_request_at_a_time _ s sent Hrun) as (Hle & _ & _ & Hoff).
    vm_compute in Hrun. injection Hrun as <- <-.
    split; [reflexivity |]. split; [exact Hle |]. by apply Hoff.
  - vm_compute in Hrun. discriminate Hrun.
Defined.

(** X21. The table size is always one of the three configured sizes and
    both the hero's and the villain's position are always seats of the
    table shown; and a request carries, as hero and as villain position,
    seats of the table shown at the click, together with
    [parseInt(stackSize, 10)]. *)
Theorem seats_stay_on_the_table (s : State) :
  reachable s →
  is_Some (TABLE_CONFIGS !! tableSize (table s)) ∧
  heroPosition (table s) ∈ id <$> currentPositions (table s) ∧
  villainPosition (table s) ∈ id <$> currentPositions (table s) ∧
  ∀ req, offered s ClickAnalyze = true → req ∈ (step s ClickAnalyze).2 →
         hero_position req = heroPosition (table s) ∧
         villain_position req ∈ id <$> currentPositions (table s) ∧
         stack req = parseStack (stackSize (table s)).
Proof.
  intros Hreach. pose proof (reachable_invariant s Hreach) as Hinv.
  destruct Hinv as [Hsz Hh Hv Hm Hc Ht Hp] eqn:E.
  split; [exact Hsz |]. split; [exact Hh |]. split; [exact Hv |].
  intros req Hoff Hreq.
  destruct (step_requests s ClickAnalyze req Hinv Hoff Hreq)
    as (_ & _ & _ & _ & _ & H1 & _ & H2 & H3).
  done.
Qed.

Lemma seats_stay_on_the_table_witness :
  reachable initial ∧
  heroPosition (table initial) ∈ id <$> currentPositions (table initial) ∧
  villainPosition (table initial) ∈ id <$> currentPositions (table initial).
Proof.
  assert (Hreach : reachable initial) by (by exists [], []).
  destruct (seats_stay_on_the_table initial Hreach) as (_ & Hh & Hv & _).
  done.
Defined.

Lemma handleTableSizeChange_cards (size : string) (st st' : PokerTable.State) :
  handleTableSizeChange size st = Some st' → heroCards st' = heroCards st.
Proof.
  unfold handleTableSizeChange.
  destruct (TABLE_CONFIGS !! size) as [cfg |]; [| discriminate]. simpl.
  destruct (if hasPosition _ _ then _ else firstId _); [| discriminate].
  simpl.
  destruct (if hasPosition _ _ then _ else secondOrFirstId _);
    [| discriminate].
  simpl. by intros [= <-].
Qed.

Lemma step_keeps_cards (s : State) (e : Event) :
  offered s e = true → heroCards (table s) ≠ [] →
  heroCards (table (step s e).1) ≠ [].
Proof.
  intros Hoff Hne.
  destruct e as [size | mode | pos | pos | text | size | pos | e | | reply];
    cbn [step fst table]; try exact Hne.
  - destruct (handleTableSizeChange size (table s)) as [st' |] eqn:E;
      cbn [default from_option]; unfold Datatypes.id; [| exact Hne].
    by rewrite (handleTableSizeChange_cards _ _ _ E).
  - unfold seatClick. by destruct (isHeroSeat (table s) pos).
  - destruct e as [card | | |]; cbn [CardSelector.step]; try exact Hne.
    cbn [offered] in Hoff. apply andb_true_iff in Hoff as [_ Hoff].
    rewrite Hoff. cbn. unfold CardSelector.confirmEnabled in Hoff.
    apply Nat.eqb_eq in Hoff. intros Hnil. rewrite Hnil in Hoff.
    discriminate Hoff.
  - by rewrite (proj1 (proj2 (apply_frame _ _))).
  - by rewrite (proj1 (proj2 (apply_frame _ _))).
Qed.

(** X22. The hero's hand can be replaced but never taken back: once two
    cards are on the hero's seat, the seat holds a hole hand after every
    further sequence of events. *)
Theorem hand_is_never_cleared
    (s s' : State) (es : list Event) (sent : list SpotRequest) :
  reachable s → heroCards (table s) ≠ [] →
  run s es = Some (s', sent) →
  holeHand (heroCards (table s')).
Proof.
  intros Hreach Hne Hrun.
  pose proof (reachable_invariant s Hreach) as Hinv.
  assert (Hne' : heroCards (table s') ≠ []).
  { clear Hinv Hreach. revert s sent Hne Hrun.
    induction es as [| e es IH]; intros s sent Hne Hrun.
    - cbn in Hrun. by injection Hrun as <- <-.
    - apply run_cons in Hrun as (Hoff & sent' & Hrun & _).
      exact (IH _ _ (step_keeps_cards s e Hoff Hne) Hrun). }
  destruct (run_invariant es _ _ _ Hinv Hrun) as ([_ _ _ _ Hc _ _] & _).
  by destruct Hc.
Qed.

Lemma hand_is_never_cleared_witness :
  match run initial
          [ClickSeat (mkPosition "BTN" "BTN" 270);
           InModal (CardSelector.ClickCard "Ah");
           InModal (CardSelector.ClickCard "Kd");
           InModal CardSelector.ClickConfirm]
  with
  | Some (s, _) =>
      match run s [ClickTableSize "9-max";
                   ClickSeat (mkPosition "BTN" "BTN" 270);
                   InModal CardSelector.ClickClear;
                   InModal CardSelector.ClickCancel;
                   ClickAnalyze]
      with
      | Some (s', _) =>
          heroCards (table s) ≠ [] ∧ holeHand (heroCards (table s'))
      | None => False
      end
  | None => False
  end.
Proof.
  destruct (run initial
              [ClickSeat (mkPosition "BTN" "BTN" 270);
               InModal (CardSelector.ClickCard "Ah");
               InModal (CardSelector.ClickCard "Kd");
               InModal CardSelector.ClickConfirm]) as [[s sent] |] eqn:Hrun;
    [| vm_compute in Hrun; discriminate Hrun].
  assert (Hreach : reachable s) by (by eexists _, _).
  vm_compute in Hrun. injection Hrun as <- <-.
  destruct (run _ [ClickTableSize "9-max";
                   ClickSeat (mkPosition "BTN" "BTN" 270);
                   InModal CardSelector.ClickClear;
                   InModal CardSelector.ClickCancel;
                   ClickAnalyze]) as [[s' sent'] |] eqn:Hrun2;
    [| vm_compute in Hrun2; discriminate Hrun2].
  match type of Hreach with
  | reachable ?s0 =>
      assert (Hne : heroCards (table s0) ≠ []) by (vm_compute; discriminate)
  end.
  split; [exact Hne |].
  exact (hand_is_never_cleared _ _ _ _ Hreach Hne Hrun2).
Defined.

(** X23. The hero's drop-down always offers the seat the villain is on.
    Choosing it puts hero and villain on one seat, and the villain's
    drop-down then holds a value that is none of its options. *)
Theorem hero_can_take_the_villain_seat (s : State) :
  reachable s →
  offered s (SelectHero (villainPosition (table s))) = true ∧
  heroPosition (table (step s (SelectHero (villainPosition (table s)))).1)
  = villainPosition (table s) ∧
  villainPosition (table (step s (SelectHero (villainPosition (table s)))).1)
  = villainPosition (table s) ∧
  villainPosition (table s)
  ∉ id <$> villainOptions
             (table (step s (SelectHero (villainPosition (table s)))).1).
Proof.
  intros Hreach. destruct (reachable_invariant s Hreach) as [_ _ Hv _ _ _ _].
  split; [by apply bool_decide_eq_true_2 |].
  cbn [step fst table setHeroPosition heroPosition villainPosition].
  split; [reflexivity |]. split; [reflexivity |].
  intros (p & Hid & Hp)%list_elem_of_fmap.
  unfold villainOptions in Hp. apply list_elem_of_filter in Hp as [Hne _].
  cbn [heroPosition] in Hne. by apply Hne.
Qed.

Lemma hero_can_take_the_villain_seat_witness :
  reachable initial ∧
  offered initial (SelectHero "BB") = true ∧
  heroPosition (table (step initial (SelectHero "BB")).1) = "BB"%string.
Proof.
  assert (Hreach : reachable initial) by (by exists [], []).
  destruct (hero_can_take_the_villain_seat initial Hreach)
    as (Hoff & Hhero & _).
  split; [exact Hreach |]. split; [exact Hoff |]. exact Hhero.
Defined.

(** X24. With a hand on the hero's seat and no call awaited, a click on
    a stack preset followed by a click on Analyze sends exactly one
    request: its stack is the preset, its hand the hero's cards, its hero
    position the hero's seat. *)
Theorem preset_then_analyze (s : State) (size : Z) :
  reachable s → heroCards (table s) ≠ [] → pending s = [] →
  size ∈ stackPresets →
  ∃ s' req,
    run s [ClickPreset size; ClickAnalyze] = Some (s', [req]) ∧
    stack req = JS.ofZ size ∧
    hand req = heroCards (table s) ∧
    hero_position req = heroPosition (table s) ∧
    pending s' = [req].
Proof.
  intros Hreach Hne Hpend Hsize.
  destruct (reachable_invariant s Hreach) as [_ _ _ _ Hc _ Hp].
  destruct Hc as [Hc | (a & b & Hab & _)]; [done |].
  destruct Hp as [[_ Hl] | (req & Hreq & _)]; [| congruence].
  cbn [run]. cbn [offered]. rewrite (bool_decide_eq_true_2 _ Hsize).
  cbn [step]. cbn [offered table fst snd tempSelection pending].
  unfold analyzeDisabled, analyzeNow.
  cbn [setStackSize heroCards loading stackSize heroPosition scenarioMode
       villainPosition].
  rewrite Hab, Hl, Hpend. cbn [length Nat.eqb negb orb app].
  assert (Hguard :
            JS.lt (stackToNumber (StackNumber size)) (JS.ofZ 1)
            || JS.gt (stackToNumber (StackNumber size)) (JS.ofZ 500) = false
            ∧ parseStack (StackNumber size) = JS.ofZ size).
  { unfold stackPresets in Hsize.
    repeat (apply elem_of_cons in Hsize as [-> | Hsize];
            [by vm_compute |]).
    by apply elem_of_nil in Hsize. }
  destruct Hguard as [-> ->].
  eexists _, _. cbn [requests fold_left]. split; [reflexivity |].
  repeat split.
Qed.

Lemma preset_then_analyze_witness :
  ∃ s,
    heroCards (table s) = ["Ah"; "Kd"]%string ∧
    ∃ s' req,
      run s [ClickPreset 50; ClickAnalyze] = Some (s', [req]) ∧
      stack req = JS.ofZ 50.
Proof.
  destruct (run initial
              [ClickSeat (mkPosition "BTN" "BTN" 270);
               InModal (CardSelector.ClickCard "Ah");
               InModal (CardSelector.ClickCard "Kd");
               InModal CardSelector.ClickConfirm]) as [[s sent] |] eqn:Hrun.
  - exists s.
    assert (Hreach : reachable s) by (by eexists _, _).
    vm_compute in Hrun. injection Hrun as <- <-.
    split; [reflexivity |].
    destruct (preset_then_analyze _ 50 Hreach) as (s' & req & H1 & H2 & _).
    + discriminate.
    + reflexivity.
    + by_evaluation.
    + by exists s', req.
  - vm_compute in Hrun. discriminate Hrun.
Defined.

End PageProperties.

Section OldAndNewTable.
Import PokerTable.

(** X25. The rewritten table asks what the first one asked.  In 'vs'
    mode, with the same cards and seats and a stack number from 1 to 500
    (the old presets 100, 50 and 20 among them), [handleAnalyze] of the
    new table makes the call the old [handleAnalyze] made, with the same
    four fields. *)
Theorem new_table_asks_as_the_old_one
    (st : State) (old : PokerTableV1.State) (reply : Reply) :
  heroCards st = PokerTableV1.heroCards old →
  heroPosition st = PokerTableV1.heroPosition old →
  villainPosition st = PokerTableV1.villainPosition old →
  stackSize st = StackNumber (PokerTableV1.stackSize old) →
  scenarioMode st = "vs"%string →
  1 ≤ PokerTableV1.stackSize old ≤ 500 →
  requests (handleAnalyze st reply)
  = (fun r => {| hero_position := PokerTableV1.hero_position r;
                 villain_position := PokerTableV1.villain_position r;
                 stack := JS.ofZ (PokerTableV1.stack r);
                 hand := PokerTableV1.hand r |})
      <$> PokerTableV1.requests (PokerTableV1.handleAnalyze old reply).
Proof.
  intros Hc Hh Hv Hs Hm Hn.
  unfold handleAnalyze, PokerTableV1.handleAnalyze.
  rewrite Hc, Hh, Hv, Hs, Hm. cbn [stackToNumber parseStack].
  unfold JS.gt. rewrite !lt_ofZ.
  rewrite (bool_decide_eq_false_2 (PokerTableV1.stackSize old < 1))
    by lia.
  rewrite (bool_decide_eq_false_2 (500 < PokerTableV1.stackSize old))
    by lia.
  rewrite (parseInt10_integerToString _ Hn).
  destruct (length (PokerTableV1.heroCards old) =? 2)%nat; [| reflexivity].
  by destruct reply.
Qed.

Lemma new_table_asks_as_the_old_one_witness :
  requests
    (handleAnalyze
       (TableView.setScenarioMode "vs"
          (TableView.setHeroCards ["Ah"; "Kd"]%string initialState))
       (Rejected None))
  = [ {| hero_position := "BTN"; villain_position := "BB";
         stack := JS.ofZ 100; hand := ["Ah"; "Kd"]%string |} ].
Proof.
  assert (Hn : 1 ≤ 100 ≤ 500) by lia.
  exact (new_table_asks_as_the_old_one
           (TableView.setScenarioMode "vs"
              (TableView.setHeroCards ["Ah"; "Kd"]%string initialState))
           (PokerTableV1.mkState ["Ah"; "Kd"]%string "BTN" "BB" 100)
           (Rejected None) eq_refl eq_refl eq_refl eq_refl eq_refl Hn).
Defined.

End OldAndNewTable.
